(** * salesiq-forecast: the forecasting script [forecast.py]

    A shallow embedding of the batch script: the loaded data frame, the
    per-level grouping, the call to the forecasting model, the assembly of
    the forecast frames, the final table and the publish step.  The script
    is one [try] block; it is modelled in a small state-and-exception monad
    whose state holds the module-level variables ([df], [all_forecasts]),
    what was printed, the file written and the [git] commands issued. *)

From Stdlib Require Import Ascii String.
From stdpp Require Import base option list strings gmap sorting.

(** ** Calendar dates

    The [ds] column after [pd.to_datetime]: a calendar date.  The input
    column is called [MonthStart]; times of day are not modelled. *)

Record date := Date { year : nat; month : nat; day : nat }.

Global Instance date_eq_dec : EqDecision date.
Proof. solve_decision. Defined.

(** Chronological order, as used by [sort_values('ds')]. *)
Definition date_le (a b : date) : Prop :=
  year a < year b ∨
  (year a = year b ∧
   (month a < month b ∨ (month a = month b ∧ day a ≤ day b))).

Global Instance date_le_dec : RelDecision date_le.
Proof. intros a b. unfold date_le. apply _. Defined.

Definition date_lt (a b : date) : Prop := date_le a b ∧ a ≠ b.

(** The first month start strictly after [d] (pandas frequency ['MS']). *)
Definition next_month_start (d : date) : date :=
  if decide (12 ≤ month d) then Date (S (year d)) 1 1
  else Date (year d) (S (month d)) 1.

(** [strftime('%Y-%m-%d')]: zero-padded decimal fields. *)
Definition digit (n : nat) : ascii := ascii_of_nat (48 + n mod 10).

Definition pad2 (n : nat) : string :=
  String (digit (n / 10)) (String (digit n) "").

Definition pad4 (n : nat) : string :=
  String (digit (n / 1000)) (String (digit (n / 100)) (pad2 n)).

Definition iso_date (d : date) : string :=
  pad4 (year d) +:+ "-" +:+ pad2 (month d) +:+ "-" +:+ pad2 (day d).

(** ** Configuration (section 1 of the script) *)

Definition FORECAST_PERIOD_MONTHS : nat := 3.

Definition OUTPUT_CSV : string := "output/sales_forecast.csv".

(** A forecast level: its name and its grouping columns.  The Python dict
    is iterated in insertion order, so it is kept as an association list. *)
Definition Level : Type := string * list string.

Definition FORECAST_LEVELS : list Level :=
  [ ("Overall", []);
    ("By_BCode", ["BCode"]);
    ("By_BCode_Product", ["BCode"; "ProductCode"]);
    ("By_BCode_PSR", ["BCode"; "PSRCode"]);
    ("By_BCode_Customer", ["BCode"; "CustomerName"]) ].

(** [sorted(list(set(itertools.chain.from_iterable(FORECAST_LEVELS.values()))))] *)
Definition all_key_cols_flat (levels : list Level) : list string :=
  merge_sort String.le (remove_dups (mjoin (snd <$> levels))).

(** ** The loaded data frame

    After [rename] and [to_datetime] a row has a date [ds], a value [y]
    ([None] is NaN) and its categorical cells ([attrs], an absent key is a
    null cell).  [columns] lists the categorical columns of the header:
    naming a column that is not there raises [KeyError].  Values are
    floating-point numbers that the script only copies; their type [V] is
    left open. *)

Record Row (V : Type) := MkRow {
  ds : date;
  y : option V;
  attrs : gmap string string
}.
Arguments MkRow {V} _ _ _.
Arguments ds {V} _.
Arguments y {V} _.
Arguments attrs {V} _.

Record DataFrame (V : Type) := MkDataFrame {
  columns : list string;
  rows : list (Row V)
}.
Arguments MkDataFrame {V} _ _.
Arguments columns {V} _.
Arguments rows {V} _.

(** The two-column frame [group_df[['ds', 'y']]] handed to the model. *)
Abbreviation Series V := (list (date * option V)).

(** ** Exceptions and printed messages *)

Inductive Exn :=
  | LoadError                      (* read_csv / to_datetime failed *)
  | NameError (var : string)       (* a variable read before it is bound *)
  | KeyError (cols : list string)  (* dropna(subset=...) on absent columns *)
  | FitError                       (* raised inside model.fit *)
  | ValueError (msg : string)      (* the explicit raise of line 108 *)
  | FileNotFoundError              (* subprocess.run: no git executable *)
  | CalledProcessError (stderr stdout : string).
                                   (* subprocess.run(check=True): exit <> 0 *)

Global Instance Exn_eq_dec : EqDecision Exn.
Proof. solve_decision. Defined.

Definition NO_FORECASTS : string :=
  "No forecasts were generated. Check input data and FORECAST_LEVELS configuration.".

(** One constructor per [print] of the script, with the values it
    interpolates. *)
Inductive Msg :=
  | MsgStarted
  | MsgReading
  | MsgProcessingLevel (level_name : string)
  | MsgNoDataForLevel (group_by_cols : list string)
  | MsgFoundCombinations (num_groups : nat)
  | MsgForecastingGroup (i num_groups : nat) (group_keys : list string)
  | MsgCompletedLevel (num_groups : nat) (level_name : string)
  | MsgForecastingOverall
  | MsgNotEnoughOverall
  | MsgCompletedOverall
  | MsgCombining
  | MsgSaved
  | MsgAttemptPush
  | MsgCommitted
  | MsgPushing
  | MsgPushed
  | MsgNoChanges
  | MsgGitNotFound
  | MsgGitFailed (stderr stdout : string)
  | MsgScriptFailed (e : Exn)
  | MsgFinished.

Global Instance Msg_eq_dec : EqDecision Msg.
Proof. solve_decision. Defined.

(** ** The forecasting model (external collaborator) *)

(** Modelled from the spec: the Forecaster is the Prophet library, which is
    not part of the repository.  Its fit may fail on a series ([fit_ok]);
    its point estimate and interval at a date ([predict_at]: yhat,
    yhat_lower, yhat_upper) are opaque, and a function of the series it was
    fitted on. *)
Class Forecaster (V : Type) := {
  fit_ok : Series V → bool;
  predict_at : Series V → date → V * V * V
}.

(** Modelled from the spec: the future horizon, [periods] calendar months
    beyond the last input date, anchored to the month start. *)
Fixpoint future_dates (last_date : date) (periods : nat) : list date :=
  match periods with
  | 0 => []
  | S k => let d := next_month_start last_date in d :: future_dates d k
  end.

Definition sort_dates (l : list date) : list date := merge_sort date_le l.

(** Modelled from the spec: the historical span, the dates the model was
    fitted on, each once, in chronological order. *)
Definition history_dates {V} (prophet_df : Series V) : list date :=
  remove_dups (sort_dates (prophet_df.*1)).

Definition later (a b : date) : date := if decide (date_le a b) then b else a.

(** Modelled from the spec: the last input date. *)
Definition max_date (l : list date) : option date :=
  foldr (λ d acc, Some (from_option (later d) d acc)) None l.

(** Modelled from the spec: the frame built by
    [model.make_future_dataframe(periods=..., freq='MS')], which covers
    both the historical span and the future horizon. *)
Definition make_future_dataframe {V} (prophet_df : Series V) (periods : nat)
  : list date :=
  let hist := history_dates prophet_df in
  match max_date hist with
  | Some last_date => hist ++ future_dates last_date periods
  | None => hist
  end.

(** A row of [model.predict(future)]. *)
Record Pred (V : Type) := MkPred {
  p_ds : date; p_yhat : V; p_lower : V; p_upper : V
}.
Arguments MkPred {V} _ _ _ _.
Arguments p_ds {V} _.
Arguments p_yhat {V} _.
Arguments p_lower {V} _.
Arguments p_upper {V} _.

(** Modelled from the spec: [model.predict(future)] returns one row per
    date of the frame, with the estimate and the interval. *)
Definition predict `{Forecaster V} (prophet_df : Series V) (future : list date)
  : list (Pred V) :=
  (λ d, let '(yh, lo, hi) := predict_at prophet_df d in MkPred d yh lo hi)
    <$> future.

(** ** Forecast frames *)

(** The forecast frame once [ForecastLevel] and the key columns are set
    (lines 76-82). *)
Record TRow (V : Type) := MkTRow {
  t_pred : Pred V;
  t_level : string;
  t_keys : gmap string string
}.
Arguments MkTRow {V} _ _ _.
Arguments t_pred {V} _.
Arguments t_level {V} _.
Arguments t_keys {V} _.

(** A row after the merge with the actuals (line 85): the frame appended to
    [all_forecasts].  A key column the frame does not carry reads as a null
    cell, which is also what [pd.concat] and line 121 put there. *)
Record FRow (V : Type) := MkFRow {
  f_ds : date;
  yhat : V;
  yhat_lower : V;
  yhat_upper : V;
  ForecastLevel : string;
  f_keys : gmap string string;
  Actual : option V
}.
Arguments MkFRow {V} _ _ _ _ _ _ _.
Arguments f_ds {V} _.
Arguments yhat {V} _.
Arguments yhat_lower {V} _.
Arguments yhat_upper {V} _.
Arguments ForecastLevel {V} _.
Arguments f_keys {V} _.
Arguments Actual {V} _.

(** [forecast['ForecastLevel'] = level_name] and the loop
    [forecast[col_name] = group_keys[j]]. *)
Definition set_keys (group_by_cols group_keys : list string)
  : gmap string string :=
  foldl (λ m ck, <[ck.1 := ck.2]> m) ∅ (zip group_by_cols group_keys).

Definition tag_frame {V} (level_name : string)
    (group_by_cols group_keys : list string) (forecast : list (Pred V))
  : list (TRow V) :=
  (λ p, MkTRow p level_name (set_keys group_by_cols group_keys)) <$> forecast.

(** [forecast.merge(prophet_df.rename(columns={'y': 'Actual'}), on='ds',
    how='left')]: every forecast row is kept, in order; it is paired with
    each input row of exactly the same date, and gets a null [Actual] when
    there is none. *)
Definition with_actual {V} (t : TRow V) (a : option V) : FRow V :=
  MkFRow (p_ds (t_pred t)) (p_yhat (t_pred t)) (p_lower (t_pred t))
         (p_upper (t_pred t)) (t_level t) (t_keys t) a.

Definition matches {V} (d : date) (prophet_df : Series V) : Series V :=
  filter (λ p, p.1 = d) prophet_df.

Definition merge_actual {V} (forecast : list (TRow V)) (prophet_df : Series V)
  : list (FRow V) :=
  forecast ≫= (λ t,
    match matches (p_ds (t_pred t)) prophet_df with
    | [] => [with_actual t None]
    | ms => (λ p, with_actual t p.2) <$> ms
    end).

(** ** Grouping *)

(** The tuple of key values of a row; [None] when one of them is null. *)
Definition group_key {V} (group_by_cols : list string) (r : Row V)
  : option (list string) :=
  mapM (λ c, attrs r !! c) group_by_cols.

(** [df.copy()]: a new frame with the same content. *)
Definition copy {V} (d : DataFrame V) : DataFrame V :=
  MkDataFrame (columns d) (rows d).

(** [dropna(subset=group_by_cols)]: a new frame; [KeyError] on columns the
    frame does not have. *)
Definition dropna {V} (subset : list string) (d : DataFrame V)
  : Exn + DataFrame V :=
  match filter (λ c, c ∉ columns d) subset with
  | [] => inr (MkDataFrame (columns d)
                 (filter (λ r, is_Some (group_key subset r)) (rows d)))
  | missing => inl (KeyError missing)
  end.

(** Order of the group keys ([groupby] sorts them): tuples compare
    lexicographically. *)
Fixpoint keys_leb (a b : list string) : bool :=
  match a, b with
  | [], _ => true
  | _ :: _, [] => false
  | x :: a', y :: b' =>
      if decide (x = y) then keys_leb a' b' else bool_decide (String.le x y)
  end.

Definition keys_le (a b : list string) : Prop := keys_leb a b = true.

Global Instance keys_le_dec : RelDecision keys_le.
Proof. intros a b. unfold keys_le. apply _. Defined.

(** [current_df.groupby(group_by_cols)]: one group per distinct key tuple,
    keys in sorted order, the rows of a group in frame order. *)
Definition groupby {V} (group_by_cols : list string) (d : DataFrame V)
  : list (list string * list (Row V)) :=
  (λ k, (k, filter (λ r, group_key group_by_cols r = Some k) (rows d)))
    <$> merge_sort keys_le (remove_dups (omap (group_key group_by_cols) (rows d))).

(** [group_df[['ds', 'y']].sort_values('ds')].  The order among rows of
    equal date is the one this sort happens to give; no statement below
    depends on it. *)
Definition series_le {V} (p q : date * option V) : Prop := date_le p.1 q.1.

Global Instance series_le_dec {V} : RelDecision (@series_le V).
Proof. intros p q. unfold series_le. apply _. Defined.

Definition sort_values {V} (s : Series V) : Series V := merge_sort series_le s.

Definition ds_y {V} (group_df : list (Row V)) : Series V :=
  (λ r, (ds r, y r)) <$> group_df.

(** ** The output table *)

Inductive Cell (V : Type) :=
  | CStr (s : string)
  | CNum (v : V)
  | CNull.
Arguments CStr {V} _.
Arguments CNum {V} _.
Arguments CNull {V}.

Record Table (V : Type) := MkTable {
  header : list string;
  body : list (list (Cell V))
}.
Arguments MkTable {V} _ _.
Arguments header {V} _.
Arguments body {V} _.

(** Line 124. *)
Definition final_output_cols (levels : list Level) : list string :=
  ["Date"; "ForecastLevel"] ++ all_key_cols_flat levels
    ++ ["Actual"; "Forecast"; "Forecast_Low"; "Forecast_High"].

Definition key_cell {V} (r : FRow V) (col : string) : Cell V :=
  from_option CStr CNull (f_keys r !! col).

(** One row of [final_df[final_output_cols]] (lines 115-125): the renamed
    columns in the order of [final_output_cols], the date as text. *)
Definition final_row {V} (key_cols : list string) (r : FRow V)
  : list (Cell V) :=
  [CStr (iso_date (f_ds r)); CStr (ForecastLevel r)]
    ++ (key_cell r <$> key_cols)
    ++ [from_option CNum CNull (Actual r);
        CNum (yhat r); CNum (yhat_lower r); CNum (yhat_upper r)].

Definition final_table {V} (levels : list Level)
    (all_forecasts : list (list (FRow V))) : Table V :=
  let final_df := mjoin all_forecasts in
  MkTable (final_output_cols levels)
          (final_row (all_key_cols_flat levels) <$> final_df).

(** ** The environment of a run and its state *)

Inductive GitResult :=
  | GitOk (stdout : string)
  | GitNotFound
  | GitFailed (stderr stdout : string).

(** What a run does not control: the clock (already formatted by
    [strftime('%Y-%m-%d %H:%M:%S')]) and the outcome of each [git]
    command. *)
Record Env := MkEnv {
  now : string;
  git : list string → GitResult
}.

(** The module-level variables and the visible effects.  [df] is unbound
    until the load; [out_file] is the file this run wrote. *)
Record State (V : Type) := MkState {
  df : option (DataFrame V);
  all_forecasts : list (list (FRow V));
  stdout : list Msg;
  out_file : option (Table V);
  git_calls : list (list string)
}.
Arguments MkState {V} _ _ _ _ _.
Arguments df {V} _.
Arguments all_forecasts {V} _.
Arguments stdout {V} _.
Arguments out_file {V} _.
Arguments git_calls {V} _.

Definition initial_state {V} : State V := MkState None [] [] None [].

(** ** The state-and-exception monad of the [try] block *)

Definition M (V A : Type) : Type := State V → (Exn + A) * State V.

Definition ret {V A} (a : A) : M V A := λ st, (inr a, st).

Definition raise {V A} (e : Exn) : M V A := λ st, (inl e, st).

Definition bind {V A B} (m : M V A) (k : A → M V B) : M V B :=
  λ st, match m st with
        | (inl e, st') => (inl e, st')
        | (inr a, st') => k a st'
        end.

Notation "'do' x <- m ; k" := (bind m (λ x, k))
  (at level 10, x name, m at level 100, k at level 200,
   format "'[v' 'do'  x  <-  m ; '/' k ']'").
Notation "m ;; k" := (bind m (λ _, k))
  (at level 100, k at level 200, right associativity).

(** [try: body except Exception as e: handler e] *)
Definition try_except {V A} (body : M V A) (handler : Exn → M V A) : M V A :=
  λ st, match body st with
        | (inl e, st') => handler e st'
        | (inr a, st') => (inr a, st')
        end.

Definition print {V} (m : Msg) : M V unit := λ st,
  (inr (), MkState (df st) (all_forecasts st) (stdout st ++ [m])
                   (out_file st) (git_calls st)).

Definition set_df {V} (d : DataFrame V) : M V unit := λ st,
  (inr (), MkState (Some d) (all_forecasts st) (stdout st)
                   (out_file st) (git_calls st)).

Definition get_df {V} : M V (DataFrame V) := λ st,
  match df st with
  | Some d => (inr d, st)
  | None => (inl (NameError "df"), st)
  end.

Definition get_all_forecasts {V} : M V (list (list (FRow V))) := λ st,
  (inr (all_forecasts st), st).

(** [all_forecasts.append(forecast)] *)
Definition append_forecast {V} (forecast : list (FRow V)) : M V unit := λ st,
  (inr (), MkState (df st) (all_forecasts st ++ [forecast]) (stdout st)
                   (out_file st) (git_calls st)).

(** [final_df.to_csv(...)]: the file is replaced by the table. *)
Definition to_csv {V} (t : Table V) : M V unit := λ st,
  (inr (), MkState (df st) (all_forecasts st) (stdout st)
                   (Some t) (git_calls st)).

Definition lift {V A} (r : Exn + A) : M V A :=
  match r with inl e => raise e | inr a => ret a end.

(** A [for] loop whose body may raise: the exception leaves the loop. *)
Fixpoint for_each {V A} (body : A → M V unit) (l : list A) : M V unit :=
  match l with
  | [] => ret ()
  | x :: l' => body x ;; for_each body l'
  end.

(** [enumerate(l, start)] *)
Fixpoint enumerate_from {A} (start : nat) (l : list A) : list (nat * A) :=
  match l with
  | [] => []
  | x :: l' => (start, x) :: enumerate_from (S start) l'
  end.

Definition enumerate {A} (l : list A) : list (nat * A) := enumerate_from 0 l.

(** ** The script *)

Section Script.
Context {V : Type} {model : Forecaster V}.

(** [model.fit(prophet_df)] *)
Definition fit (prophet_df : Series V) : M V unit :=
  if fit_ok prophet_df then ret () else raise FitError.

(** Lines 66-87 and 96-104: fit, predict, tag, merge, append.  The
    Overall branch is the same code with no key column. *)
Definition forecast_frame (level_name : string)
    (group_by_cols group_keys : list string) (prophet_df : Series V)
  : list (FRow V) :=
  let future := make_future_dataframe prophet_df FORECAST_PERIOD_MONTHS in
  let forecast := predict prophet_df future in
  let forecast := tag_frame level_name group_by_cols group_keys forecast in
  merge_actual forecast prophet_df.

Definition forecast_group (level_name : string)
    (group_by_cols group_keys : list string) (group_df : list (Row V))
  : M V unit :=
  let prophet_df := sort_values (ds_y group_df) in
  fit prophet_df ;;
  append_forecast
    (forecast_frame level_name group_by_cols group_keys prophet_df).

(** The body of the loop over the groups (lines 57-87). *)
Definition group_body (level_name : string) (group_by_cols : list string)
    (num_groups : nat) (it : nat * (list string * list (Row V)))
  : M V unit :=
  let '(i, (group_keys, group_df)) := it in
  (if decide (1 < num_groups)
   then print (MsgForecastingGroup (i + 1) num_groups group_keys)
   else ret ()) ;;
  if decide (length group_df < 2) then ret ()            (* continue *)
  else forecast_group level_name group_by_cols group_keys group_df.

(** The body of the loop over the levels (lines 41-105). *)
Definition process_level (level : Level) : M V unit :=
  let '(level_name, group_by_cols) := level in
  print (MsgProcessingLevel level_name) ;;
  do d <- get_df ;
  let current_df := copy d in
  match group_by_cols with
  | _ :: _ =>
      do current_df <- lift (dropna group_by_cols current_df) ;
      match rows current_df with
      | [] => print (MsgNoDataForLevel group_by_cols)      (* continue *)
      | _ :: _ =>
          let grouped := groupby group_by_cols current_df in
          let num_groups := length grouped in
          print (MsgFoundCombinations num_groups) ;;
          for_each (group_body level_name group_by_cols num_groups)
                   (enumerate grouped) ;;
          print (MsgCompletedLevel num_groups level_name)
      end
  | [] =>
      print MsgForecastingOverall ;;
      if decide (length (rows current_df) < 2)
      then print MsgNotEnoughOverall                        (* continue *)
      else
        forecast_group level_name [] [] (rows current_df) ;;
        print MsgCompletedOverall
  end.

Definition process_levels (levels : list Level) : M V unit :=
  for_each process_level levels.

(** Lines 107-130: the emptiness check, then the table is built and
    written. *)
Definition write_output (levels : list Level) : M V unit :=
  do forecasts <- get_all_forecasts ;
  match forecasts with
  | [] => raise (ValueError NO_FORECASTS)
  | _ :: _ =>
      print MsgCombining ;;
      to_csv (final_table levels forecasts) ;;
      print MsgSaved
  end.

(** [subprocess.run(["git", ...], check=True, capture_output=True)] *)
Definition subprocess_run (env : Env) (cmd : list string) : M V string :=
  λ st,
  let st' := MkState (df st) (all_forecasts st) (stdout st) (out_file st)
                     (git_calls st ++ [cmd]) in
  match git env cmd with
  | GitOk out => (inr out, st')
  | GitNotFound => (inl FileNotFoundError, st')
  | GitFailed err out => (inl (CalledProcessError err out), st')
  end.

(** [s.replace('\\', '/')] *)
Fixpoint normalize_path (s : string) : string :=
  match s with
  | EmptyString => EmptyString
  | String c s' =>
      String (if decide (c = "\"%char) then "/"%char else c)
             (normalize_path s')
  end.

(** [a in b] on strings. *)
Fixpoint contains (a b : string) : bool :=
  String.prefix a b ||
  match b with
  | EmptyString => false
  | String _ b' => contains a b'
  end.

Definition commit_message (env : Env) : string :=
  "Auto-update sales forecast: " +:+ now env.

(** Lines 139-164: the inner [try] with its two handlers. *)
Definition publish (env : Env) : M V unit :=
  print MsgAttemptPush ;;
  try_except
    (subprocess_run env ["git"; "add"; OUTPUT_CSV] ;;
     let commit_message := commit_message env in
     do status <- subprocess_run env ["git"; "status"; "--porcelain"] ;
     if contains (normalize_path OUTPUT_CSV) (normalize_path status)
     then
       subprocess_run env ["git"; "commit"; "-m"; commit_message] ;;
       print MsgCommitted ;;
       print MsgPushing ;;
       subprocess_run env ["git"; "push"] ;;
       print MsgPushed
     else print MsgNoChanges)
    (λ e, match e with
          | FileNotFoundError => print MsgGitNotFound
          | CalledProcessError err out => print (MsgGitFailed err out)
          | _ => raise e
          end).

(** [pd.read_csv], the renaming and [pd.to_datetime] (lines 31-35); the
    outcome of the load is the input of the model. *)
Definition load (input : Exn + DataFrame V) : M V unit :=
  print MsgReading ;;
  do d <- lift input ;
  set_df d.

(** The outer [try] block (lines 29-164). *)
Definition try_block (env : Env) (levels : list Level)
    (input : Exn + DataFrame V) : M V unit :=
  load input ;;
  process_levels levels ;;
  write_output levels ;;
  publish env.

(** Lines 27-174: the outer [try] with its handler, between the two
    banner lines. *)
Definition main (env : Env) (levels : list Level)
    (input : Exn + DataFrame V) : M V unit :=
  print MsgStarted ;;
  try_except (try_block env levels input)
             (λ e, print (MsgScriptFailed e)) ;;
  print MsgFinished.

(** What can be observed of a run.  The interpreter leaves with status 1
    when an exception escapes the module and with status 0 when the
    module runs to its end; the script never calls [sys.exit]. *)
Record Outcome := MkOutcome {
  exit_code : nat;
  printed : list Msg;
  written : option (Table V);
  git_log : list (list string)
}.

Definition script (env : Env) (levels : list Level)
    (input : Exn + DataFrame V) : Outcome :=
  let '(r, st) := main env levels input initial_state in
  MkOutcome (match r with inl _ => 1 | inr _ => 0 end)
            (stdout st) (out_file st) (git_calls st).
End Script.

Arguments Outcome : clear implicits.
Arguments exit_code {V} _.
Arguments printed {V} _.
Arguments written {V} _.
Arguments git_log {V} _.

(** ** Definitions used to state the properties *)

(** The state right after the load (lines 27-35). *)
Definition loaded_state {V} (d : DataFrame V) : State V :=
  MkState (Some d) [] [MsgStarted; MsgReading] None [].

(** The groups of a level that reach [model.fit] on the loaded frame [d],
    with their key tuples, in processing order. *)
Definition fit_candidates {V} (group_by_cols : list string) (d : DataFrame V)
  : list (list string * list (Row V)) :=
  match group_by_cols with
  | [] => if decide (length (rows d) < 2) then [] else [([], rows d)]
  | _ :: _ =>
      match dropna group_by_cols (copy d) with
      | inr current_df =>
          filter (λ kg, ¬ length kg.2 < 2) (groupby group_by_cols current_df)
      | inl _ => []
      end
  end.

(** The frame a group contributes once its model is fitted. *)
Definition group_frame `{Forecaster V} (level_name : string)
    (group_by_cols : list string) (kg : list string * list (Row V))
  : list (FRow V) :=
  forecast_frame level_name group_by_cols kg.1 (sort_values (ds_y kg.2)).

(** Reading a date back from its ten characters [YYYY-MM-DD]. *)
Definition digit_value (c : ascii) : nat := nat_of_ascii c - 48.

Definition parse_iso (s : string) : option date :=
  match s with
  | String y1 (String y2 (String y3 (String y4 (String "-"
      (String m1 (String m2 (String "-" (String d1 (String d2 "")))))))))
    => Some (Date (1000 * digit_value y1 + 100 * digit_value y2
                   + 10 * digit_value y3 + digit_value y4)
                  (10 * digit_value m1 + digit_value m2)
                  (10 * digit_value d1 + digit_value d2))
  | _ => None
  end.

(** How the script ends from the state [st] of its [try] block: through
    the handler of line 167 ([failed]) or not ([finished]); either way the
    last line is printed and no exception escapes. *)
Definition failed {V} (e : Exn) (st : State V) : Outcome V :=
  MkOutcome 0 ((stdout st ++ [MsgScriptFailed e]) ++ [MsgFinished])
            (out_file st) (git_calls st).

Definition finished {V} (st : State V) : Outcome V :=
  MkOutcome 0 (stdout st ++ [MsgFinished]) (out_file st) (git_calls st).

(** The frame of a group of one of the levels. *)
Definition from_level `{Forecaster V} (levels : list Level)
    (frame : list (FRow V)) : Prop :=
  ∃ level d kg, level ∈ levels ∧ kg ∈ fit_candidates level.2 d
                ∧ frame = group_frame level.1 level.2 kg.

(** The frames of all the groups of all the levels, in processing order. *)
Definition all_frames `{Forecaster V} (levels : list Level) (d : DataFrame V)
  : list (list (FRow V)) :=
  levels ≫= (λ level, group_frame level.1 level.2 <$> fit_candidates level.2 d).

(** The latest date of a series. *)
Definition is_latest {V} (d : date) (s : Series V) : Prop :=
  d ∈ s.*1 ∧ ∀ x, x ∈ s.*1 → date_le x d.

(** What the loop over the levels leaves alone: the loaded frame, the
    output file and the [git] history. *)
Definition same_world {V} (st st' : State V) : Prop :=
  df st' = df st ∧ out_file st' = out_file st ∧ git_calls st' = git_calls st.

(** [all_forecasts] only grows, by frames that satisfy [P]. *)
Definition grows_by {V} (P : list (FRow V) → Prop) (st st' : State V) : Prop :=
  ∃ new, all_forecasts st' = all_forecasts st ++ new ∧ Forall P new.

(** No failure banner is printed between two states. *)
Definition no_new_failure {V} (st st' : State V) : Prop :=
  ∀ e, MsgScriptFailed e ∈ stdout st' → MsgScriptFailed e ∈ stdout st.

(** A computation whose final state is always related to its initial
    state. *)
Definition preserves {V A} (R : relation (State V)) (m : M V A) : Prop :=
  ∀ st, R st (m st).2.

(** ** Sample data: values are whole amounts *)

Module Sample.

(** A model that cannot be fitted on fewer than two non-null values or
    on a series whose dates are all the same, and predicts the number of
    its input rows with a margin of one. *)
Definition can_fit (s : Series nat) : bool :=
  bool_decide (2 ≤ length (filter (λ p, is_Some p.2) s)
               ∧ 2 ≤ length (history_dates s)).

Definition estimate (s : Series nat) (d : date) : nat * nat * nat :=
  (length s, length s - 1, length s + 1).

Definition model : Forecaster nat :=
  {| fit_ok := can_fit; predict_at := estimate |}.

Definition key_columns : list string :=
  ["BCode"; "ProductCode"; "PSRCode"; "CustomerName"].

Definition row (yr mo : nat) (v : option nat) (cells : list (string * string))
  : Row nat :=
  MkRow (Date yr mo 1) v (list_to_map cells).

(** Scenario B of the spec: BCode values A, A, B. *)
Definition bcodes : DataFrame nat :=
  MkDataFrame key_columns
    [ row 2024 1 (Some 10) [("BCode", "A")];
      row 2024 2 (Some 12) [("BCode", "B")];
      row 2024 2 (Some 11) [("BCode", "A")] ].

(** Group A cannot be fitted (its two values are null); group B and the
    whole frame can. *)
Definition one_bad_group : DataFrame nat :=
  MkDataFrame key_columns
    [ row 2024 1 None [("BCode", "A")];
      row 2024 2 None [("BCode", "A")];
      row 2024 1 (Some 10) [("BCode", "B")];
      row 2024 2 (Some 20) [("BCode", "B")] ].

(** A header and no record. *)
Definition no_rows : DataFrame nat := MkDataFrame key_columns [].

(** Three records, the second with a null value. *)
Definition null_value : DataFrame nat :=
  MkDataFrame key_columns
    [ row 2024 1 (Some 10) [];
      row 2024 2 None [];
      row 2024 3 (Some 30) [] ].




(** No [git] executable. *)
Definition no_git : Env := MkEnv "2024-03-01 09:00:00" (λ _, GitNotFound).

(** [git push] fails (no remote); everything before it works and the
    status lists the output file. *)
Definition no_remote : Env :=
  MkEnv "2024-03-01 09:00:00"
    (λ cmd, match cmd with
            | ["git"; "push"] => GitFailed "fatal: No configured push destination." ""
            | ["git"; "status"; "--porcelain"] => GitOk "A  output/sales_forecast.csv"
            | _ => GitOk ""
            end).

(** A working repository with a remote, at a later time. *)
Definition healthy : Env :=
  MkEnv "2024-04-01 09:00:00"
    (λ cmd, match cmd with
            | ["git"; "status"; "--porcelain"] => GitOk "M  output/sales_forecast.csv"
            | _ => GitOk ""
            end).

End Sample.

(** ** More sample data *)

Module Cases.

(** The records of scenario B in a file that has no [PSRCode] column. *)
Definition no_psr_column : DataFrame nat :=
  MkDataFrame ["BCode"; "ProductCode"; "CustomerName"]
              (rows Sample.bcodes).

(** A file with a single record. *)
Definition one_record : DataFrame nat :=
  MkDataFrame Sample.key_columns
    [ Sample.row 2024 1 (Some 10) [("BCode", "A"); ("ProductCode", "P1")] ].

(** Two business units, two products, two months each. *)
Definition two_units : DataFrame nat :=
  MkDataFrame Sample.key_columns
    [ Sample.row 2024 1 (Some 10) [("BCode", "B"); ("ProductCode", "P2")];
      Sample.row 2024 1 (Some 20) [("BCode", "A"); ("ProductCode", "P1")];
      Sample.row 2024 2 (Some 11) [("BCode", "B"); ("ProductCode", "P2")];
      Sample.row 2024 2 (Some 21) [("BCode", "A"); ("ProductCode", "P1")];
      Sample.row 2024 2 (Some 5) [("ProductCode", "P1")] ].

(** [git status] lists the output file the way Windows writes it. *)
Definition windows_status : Env :=
  MkEnv "2024-03-01 09:00:00"
    (λ cmd, match cmd with
            | ["git"; "status"; "--porcelain"] =>
                GitOk (" M output" +:+ String "\"%char "sales_forecast.csv")
            | _ => GitOk ""
            end).

(** [git status] reports no change. *)
Definition unchanged : Env := MkEnv "2024-03-01 09:00:00" (λ _, GitOk "").

End Cases.

(** ** Proof automation *)

(** Two outcomes recorded for the same [git] command agree. *)
Ltac same_git :=
  repeat match goal with
    | H : git ?env ?c = _, H' : git ?env ?c = _ |- _ =>
        rewrite H in H';
        first [ discriminate H' | injection H' as ? ?; subst | clear H' ]
    end.

(** Membership in a list written with [++] and [::]. *)
Ltac list_mem :=
  rewrite ?elem_of_app, ?elem_of_cons, ?elem_of_nil;
  intuition (try discriminate; try congruence).

(** Membership in a list that computes to its elements. *)
Ltac in_computed_list :=
  vm_compute;
  repeat first [ apply list_elem_of_here | apply list_elem_of_further ].

(** * Properties *)

(** ** Dates *)

Global Instance date_le_refl : Reflexive date_le.
Proof. intros [a b c]. unfold date_le. simpl. lia. Qed.

Global Instance date_le_trans : Transitive date_le.
Proof. intros [a b c] [a' b' c'] [a'' b'' c'']. unfold date_le. simpl. lia. Qed.

Global Instance date_le_total : Total date_le.
Proof. intros [a b c] [a' b' c']. unfold date_le. simpl. lia. Qed.

Lemma date_le_antisym (a b : date) : date_le a b → date_le b a → a = b.
Proof.
  destruct a as [a1 a2 a3], b as [b1 b2 b3]. unfold date_le. simpl.
  intros Hab Hba.
  assert (a1 = b1 ∧ a2 = b2 ∧ a3 = b3) as (-> & -> & ->) by lia.
  reflexivity.
Qed.

Global Instance date_le_antisymm : AntiSymm (=) date_le.
Proof. intros a b. apply date_le_antisym. Qed.

Lemma next_month_start_day (d : date) : day (next_month_start d) = 1.
Proof. unfold next_month_start. case_decide; reflexivity. Qed.

Lemma next_month_start_later (d : date) : date_lt d (next_month_start d).
Proof.
  destruct d as [a b c]. unfold date_lt, date_le, next_month_start. simpl.
  case_decide; simpl; split; try lia; intros [=]; lia.
Qed.

Lemma date_lt_le_trans (a b c : date) : date_le a b → date_lt b c → date_lt a c.
Proof.
  intros Hab [Hbc Hne]. split; [by etrans|].
  intros ->. apply Hne. by apply date_le_antisym.
Qed.

Lemma later_upper (a b : date) : date_le a (later a b) ∧ date_le b (later a b).
Proof.
  unfold later. case_decide as Hab; split; try reflexivity; try done.
  destruct (total date_le a b); done.
Qed.

Lemma later_cases (a b : date) : later a b = a ∨ later a b = b.
Proof. unfold later. case_decide; auto. Qed.

Lemma max_date_spec (l : list date) (m : date) :
  max_date l = Some m → m ∈ l ∧ ∀ x, x ∈ l → date_le x m.
Proof.
  revert m. induction l as [|d l IH]; intros m; simpl; [done|].
  intros [= <-]. destruct (max_date l) as [m'|] eqn:Hm; simpl.
  - destruct (IH m' eq_refl) as [Hin Hub].
    destruct (later_upper d m') as [H1 H2]. split.
    + destruct (later_cases d m') as [-> | ->]; [left | by right].
    + intros x [-> | Hx]%elem_of_cons; [done|]. etrans; [by apply Hub|done].
  - destruct l as [|d' l']; [|done]. split; [left|].
    intros x [-> | Hx]%elem_of_cons; [done | by inversion Hx].
Qed.

Lemma max_date_is_Some (l : list date) : l ≠ [] → is_Some (max_date l).
Proof. destruct l; [done | by eexists]. Qed.

Lemma max_date_unique (l : list date) (d : date) :
  d ∈ l → (∀ x, x ∈ l → date_le x d) → max_date l = Some d.
Proof.
  intros Hin Hub.
  destruct (max_date_is_Some l) as [m Hm]; [by intros -> ; inversion Hin|].
  rewrite Hm. f_equal. destruct (max_date_spec l m Hm) as [Hmin Hmub].
  apply date_le_antisym; auto.
Qed.

Lemma elem_of_history_dates {V} (s : Series V) (d : date) :
  d ∈ history_dates s ↔ d ∈ s.*1.
Proof.
  unfold history_dates, sort_dates.
  by rewrite elem_of_remove_dups, merge_sort_Permutation.
Qed.

Lemma NoDup_history_dates {V} (s : Series V) : NoDup (history_dates s).
Proof. apply NoDup_remove_dups. Qed.


Lemma elem_of_future_dates (d0 : date) (n : nat) (d : date) :
  d ∈ future_dates d0 n → date_lt d0 d ∧ day d = 1.
Proof.
  revert d0. induction n as [|n IH]; intros d0; simpl; [by inversion 1|].
  intros [-> | Hd]%elem_of_cons.
  - split; [apply next_month_start_later | apply next_month_start_day].
  - destruct (IH _ Hd) as [Hlt Hday]. split; [|done].
    destruct (next_month_start_later d0) as [Hle _].
    by eapply date_lt_le_trans.
Qed.

Lemma length_future_dates (d0 : date) (n : nat) : length (future_dates d0 n) = n.
Proof. revert d0. induction n; intros; simpl; auto. Qed.

(** The frame predicted on: the dates seen, then the months ahead. *)
Lemma make_future_dataframe_latest {V} (s : Series V) (d0 : date) (n : nat) :
  is_latest d0 s →
  make_future_dataframe s n = history_dates s ++ future_dates d0 n.
Proof.
  intros [Hin Hub]. unfold make_future_dataframe.
  rewrite (max_date_unique (history_dates s) d0); [done | |].
  - by apply elem_of_history_dates.
  - intros x Hx. by apply Hub, elem_of_history_dates.
Qed.

Lemma latest_exists {V} (s : Series V) : s ≠ [] → ∃ d0, is_latest d0 s.
Proof.
  intros Hne. destruct (max_date_is_Some (s.*1)) as [m Hm].
  { by destruct s. }
  exists m. by apply max_date_spec.
Qed.

(** *** Monthly data: a first date and the starts of the months after it *)









(** ** The merge with the actuals *)

Lemma elem_of_matches {V} (d : date) (s : Series V) (p : date * option V) :
  p ∈ matches d s ↔ p.1 = d ∧ p ∈ s.
Proof. unfold matches. by rewrite list_elem_of_filter. Qed.

Lemma matches_nil {V} (d : date) (s : Series V) :
  matches d s = [] ↔ d ∉ s.*1.
Proof.
  split.
  - intros Hnil [p [-> Hp]]%list_elem_of_fmap.
    assert (p ∈ matches p.1 s) as Hin by (by apply elem_of_matches).
    rewrite Hnil in Hin. by inversion Hin.
  - intros Hnot. destruct (matches d s) as [|p ms] eqn:Hm; [done|].
    exfalso. apply Hnot.
    assert (p ∈ matches d s) as [<- Hp]%elem_of_matches by (rewrite Hm; left).
    by apply list_elem_of_fmap_2.
Qed.


Lemma elem_of_merge_actual {V} (forecast : list (TRow V)) (s : Series V)
    (r : FRow V) :
  r ∈ merge_actual forecast s ↔
  ∃ t, t ∈ forecast ∧
    ((∃ p, p ∈ s ∧ p.1 = p_ds (t_pred t) ∧ r = with_actual t p.2)
     ∨ ((p_ds (t_pred t) ∉ s.*1) ∧ r = with_actual t None)).
Proof.
  unfold merge_actual. rewrite list_elem_of_bind.
  split; intros (t & Ht1 & Ht2).
  - exists t. destruct (matches _ s) as [|p ms] eqn:Hm.
    + split; [done|]. right. apply list_elem_of_singleton in Ht1.
      split; [by apply matches_nil | done].
    + split; [done|]. left.
      apply list_elem_of_fmap in Ht1 as (q & -> & Hq).
      rewrite <- Hm in Hq. apply elem_of_matches in Hq as [Hq1 Hq2]. eauto.
  - exists t. split; [|done].
    destruct Ht2 as [(p & Hp & Hd & ->) | [Hnot ->]].
    + assert (p ∈ matches (p_ds (t_pred t)) s) as Hin
        by (by apply elem_of_matches).
      destruct (matches _ s) as [|q ms]; [by inversion Hin|].
      by apply (list_elem_of_fmap_2 (λ p, with_actual t p.2)).
    + apply matches_nil in Hnot. rewrite Hnot. by left.
Qed.


(** ** Sorting keeps the rows *)

Lemma sort_values_Permutation {V} (s : Series V) : sort_values s ≡ₚ s.
Proof. apply merge_sort_Permutation. Qed.



Lemma length_sort_values {V} (s : Series V) : length (sort_values s) = length s.
Proof. by rewrite sort_values_Permutation. Qed.



(** ** The frame of one group *)

Section Frame.
Context {V : Type} {model : Forecaster V}.

Lemma elem_of_tag_frame level_name cols keys (forecast : list (Pred V)) t :
  t ∈ tag_frame level_name cols keys forecast ↔
  ∃ p, p ∈ forecast ∧ t = MkTRow p level_name (set_keys cols keys).
Proof.
  unfold tag_frame. rewrite list_elem_of_fmap.
  split; intros (p & ? & ?); eauto.
Qed.

Lemma elem_of_predict (s : Series V) (future : list date) (p : Pred V) :
  p ∈ predict s future → p_ds p ∈ future.
Proof.
  unfold predict. intros (d & -> & Hd)%list_elem_of_fmap.
  by destruct (predict_at s d) as [[??]?].
Qed.



(** Every row of a frame carries the level name and the key columns of
    its group. *)
Lemma forecast_frame_tags level_name cols keys (s : Series V) (r : FRow V) :
  r ∈ forecast_frame level_name cols keys s →
  ForecastLevel r = level_name ∧ f_keys r = set_keys cols keys
  ∧ f_ds r ∈ make_future_dataframe s FORECAST_PERIOD_MONTHS.
Proof.
  unfold forecast_frame. rewrite elem_of_merge_actual.
  intros (t & (p & Hp & ->)%elem_of_tag_frame & Hr).
  apply elem_of_predict in Hp.
  destruct Hr as [(q & _ & _ & ->) | [_ ->]]; done.
Qed.

End Frame.

(** ** Relating the final state of a computation to its initial state *)

Global Instance same_world_preorder {V} : PreOrder (@same_world V).
Proof.
  split.
  - by intros st.
  - intros st1 st2 st3 (? & ? & ?) (? & ? & ?). unfold same_world.
    split_and!; congruence.
Qed.

Global Instance grows_by_preorder {V} (P : list (FRow V) → Prop) :
  PreOrder (grows_by P).
Proof.
  split.
  - intros st. exists []. by rewrite app_nil_r.
  - intros st1 st2 st3 (n1 & E1 & F1) (n2 & E2 & F2). exists (n1 ++ n2).
    split; [by rewrite E2, E1, app_assoc | by apply Forall_app].
Qed.

Global Instance no_new_failure_preorder {V} : PreOrder (@no_new_failure V).
Proof.
  split.
  - by intros st e.
  - intros st1 st2 st3 H12 H23 e He. by apply H12, H23.
Qed.

Section Preserves.
Context {V : Type} (R : relation (State V)) `{!PreOrder R}.

Lemma preserves_ret {A} (a : A) : preserves R (@ret V A a).
Proof. intros st. reflexivity. Qed.

Lemma preserves_raise {A} (e : Exn) : preserves R (@raise V A e).
Proof. intros st. reflexivity. Qed.

Lemma preserves_lift {A} (r : Exn + A) : preserves R (@lift V A r).
Proof. destruct r; [apply preserves_raise | apply preserves_ret]. Qed.

Lemma preserves_get_df : preserves R (@get_df V).
Proof. intros st. unfold get_df. destruct (df st); reflexivity. Qed.

Lemma preserves_bind {A B} (m : M V A) (k : A → M V B) :
  preserves R m → (∀ a, preserves R (k a)) → preserves R (bind m k).
Proof.
  intros Hm Hk st. unfold bind. specialize (Hm st).
  destruct (m st) as [[e|a] st']; simpl in *; [done|].
  etrans; [done | apply Hk].
Qed.

Lemma preserves_bind_ret {A B} (a : A) (k : A → M V B) :
  preserves R (k a) → preserves R (bind (ret a) k).
Proof. intros Hk st. apply Hk. Qed.

Lemma preserves_bind_raise {A B} (e : Exn) (k : A → M V B) :
  preserves R (bind (raise e) k).
Proof. intros st. reflexivity. Qed.

Lemma preserves_try_except {A} (m : M V A) (h : Exn → M V A) :
  preserves R m → (∀ e, preserves R (h e)) → preserves R (try_except m h).
Proof.
  intros Hm Hh st. unfold try_except. specialize (Hm st).
  destruct (m st) as [[e|a] st']; simpl in *; [|done].
  etrans; [done | apply Hh].
Qed.

Lemma preserves_for_each {A} (body : A → M V unit) (l : list A) :
  (∀ x, x ∈ l → preserves R (body x)) → preserves R (for_each body l).
Proof.
  induction l as [|x l IH]; intros Hbody; simpl; [apply preserves_ret|].
  apply preserves_bind; [apply Hbody; left|].
  intros _. apply IH. intros y Hy. apply Hbody. by right.
Qed.
End Preserves.

Lemma elem_of_enumerate_from {A} (start : nat) (l : list A) (i : nat) (x : A) :
  (i, x) ∈ enumerate_from start l → x ∈ l.
Proof.
  revert start. induction l as [|a l IH]; intros start; simpl; [by inversion 1|].
  intros [[= -> ->] | Hin]%elem_of_cons; [left | right; eauto].
Qed.

Section Levels.
Context {V : Type} {model : Forecaster V}.
Implicit Types (st : State V) (d : DataFrame V) (g : list (Row V)).

#[local] Arguments dropna : simpl never.
#[local] Arguments groupby : simpl never.
#[local] Arguments group_key : simpl never.
#[local] Arguments forecast_group : simpl never.
#[local] Arguments group_frame : simpl never.

(** The loop over the levels changes the state only by printing and by
    appending the frames of groups that reach the model. *)
Lemma process_level_preserves (R : relation (State V)) `{!PreOrder R}
    (level : Level) :
  (∀ m, (∀ e, m ≠ MsgScriptFailed e) → preserves R (print m)) →
  (∀ d kg, kg ∈ fit_candidates level.2 d →
           preserves R (append_forecast (group_frame level.1 level.2 kg))) →
  ∀ st, R st (process_level level st).2.
Proof.
  destruct level as [level_name cols]. simpl. intros Hprint Happ.
  assert (∀ d kg, kg ∈ fit_candidates cols d →
            preserves R (forecast_group level_name cols kg.1 kg.2)) as Hfg.
  { intros d kg Hkg. unfold forecast_group.
    apply preserves_bind; [done | | intros _; by eapply Happ].
    unfold fit. destruct (fit_ok _);
      [by apply preserves_ret | by apply preserves_raise]. }
  assert (∀ m, (∀ e, m ≠ MsgScriptFailed e) →
               ∀ k : unit → M V unit, (∀ u, preserves R (k u)) →
               preserves R (bind (print m) k)) as Hthen.
  { intros m Hm k Hk. apply preserves_bind; [done | by apply Hprint | done]. }
  unfold process_level.
  apply Hthen; [done | intros _].
  apply preserves_bind; [done | by apply preserves_get_df | intros d].
  destruct cols as [|c cols].
  - apply Hthen; [done | intros _].
    case_decide as Hlen; [by apply Hprint|].
    apply preserves_bind; [done | | intros _; by apply Hprint].
    apply (Hfg d ([], rows (copy d))). unfold fit_candidates.
    rewrite decide_False by done. left.
  - destruct (dropna (c :: cols) (copy d)) as [e|cd] eqn:Hdrop.
    { by apply preserves_bind_raise. }
    apply preserves_bind_ret.
    destruct (rows cd) as [|r rs] eqn:Hrows; [by apply Hprint|].
    apply Hthen; [done | intros _].
    apply preserves_bind; [done | | intros _; by apply Hprint].
    apply preserves_for_each; [done|]. intros [i [k g]] Hin.
    unfold group_body.
    apply preserves_bind; [done | | intros _].
    { case_decide; [by apply Hprint | by apply preserves_ret]. }
    case_decide as Hlen; [by apply preserves_ret|].
    apply (Hfg d (k, g)). unfold fit_candidates. rewrite Hdrop.
    apply list_elem_of_filter. split; [done|].
    by eapply elem_of_enumerate_from.
Qed.

Lemma print_same_world (m : Msg) : preserves same_world (@print V m).
Proof. by intros st. Qed.

Lemma append_same_world (frame : list (FRow V)) :
  preserves same_world (append_forecast frame).
Proof. by intros st. Qed.

Lemma process_level_same_world (level : Level) st :
  same_world st (process_level level st).2.
Proof.
  apply process_level_preserves; [apply _ | |].
  - intros m _. apply print_same_world.
  - intros. apply append_same_world.
Qed.

Lemma process_levels_same_world (levels : list Level) st :
  same_world st (process_levels levels st).2.
Proof.
  apply (preserves_for_each same_world). intros level _ st'.
  apply process_level_same_world.
Qed.

(** Every frame added by the loop is the frame of a group of one of the
    levels. *)
Lemma process_levels_grows (levels : list Level) st :
  grows_by (from_level levels) st (process_levels levels st).2.
Proof.
  apply (preserves_for_each (grows_by (from_level levels))).
  intros level Hlevel st'.
  apply process_level_preserves; [apply _ | |].
  - intros m _ st''. exists []. by rewrite app_nil_r.
  - intros d kg Hkg st''. eexists [_]. split; [done|].
    apply Forall_singleton. by exists level, d, kg.
Qed.

(** The loop never prints the failure banner of the outer handler. *)
Lemma process_levels_no_failure (levels : list Level) st :
  no_new_failure st (process_levels levels st).2.
Proof.
  apply (preserves_for_each no_new_failure). intros level _ st'.
  apply process_level_preserves; [apply _ | |].
  - intros m Hm st'' e. simpl. rewrite elem_of_app, list_elem_of_singleton.
    intros [?| <-]; [done | by destruct (Hm e)].
  - by intros d kg _ st'' e.
Qed.

(** *** One group *)

Lemma forecast_group_ok level_name cols k g st :
  fit_ok (sort_values (ds_y g)) = true →
  forecast_group level_name cols k g st
  = (inr (), MkState (df st)
               (all_forecasts st ++ [group_frame level_name cols (k, g)])
               (stdout st) (out_file st) (git_calls st)).
Proof.
  intros Hfit. unfold forecast_group, bind, fit. by rewrite Hfit.
Qed.

Lemma forecast_group_fail level_name cols k g st :
  fit_ok (sort_values (ds_y g)) = false →
  forecast_group level_name cols k g st = (inl FitError, st).
Proof.
  intros Hfit. unfold forecast_group, bind, fit. by rewrite Hfit.
Qed.

(** *** The loop over the groups of a level *)

Lemma group_loop_ok level_name cols n
    (groups : list (list string * list (Row V))) start st :
  (∀ kg, kg ∈ groups → ¬ length kg.2 < 2 →
         fit_ok (sort_values (ds_y kg.2)) = true) →
  ∃ st', for_each (group_body level_name cols n)
                  (enumerate_from start groups) st = (inr (), st')
    ∧ all_forecasts st'
      = all_forecasts st
        ++ (group_frame level_name cols
              <$> filter (λ kg, ¬ length kg.2 < 2) groups).
Proof.
  revert start st. induction groups as [|[k g] groups IH]; intros start st Hfit.
  - eexists. split; [done|]. by rewrite app_nil_r.
  - simpl. rewrite filter_cons. simpl.
    assert (∀ kg, kg ∈ groups → ¬ length kg.2 < 2 →
              fit_ok (sort_values (ds_y kg.2)) = true) as Hfit'
      by (intros kg' Hkg' Hlen'; apply Hfit; [right; exact Hkg' | exact Hlen']).
    set (pr := if decide (1 < n)
               then print (MsgForecastingGroup (start + 1) n k)
               else ret ()).
    assert (∃ st1, pr st = (inr (), st1)
                   ∧ all_forecasts st1 = all_forecasts st)
      as (st1 & Hpr & Hall).
    { unfold pr. case_decide; eexists; split; done. }
    unfold bind at 1. unfold bind at 1. fold pr. rewrite Hpr.
    case_decide as Hlen.
    + destruct (IH (S start) st1 Hfit') as (st' & Hloop & Hst').
      exists st'. simpl. rewrite Hloop. split; [done|].
      rewrite decide_False by (by intros Hn). by rewrite Hst', Hall.
    + rewrite forecast_group_ok by (apply (Hfit (k, g)); [left | done]).
      edestruct (IH (S start)) as (st' & Hloop & Hst'); [done|].
      exists st'. rewrite Hloop. split; [done|].
      rewrite decide_True by done.
      rewrite Hst'. simpl. rewrite Hall, <- app_assoc. done.
Qed.

Lemma group_loop_fail level_name cols n
    (groups : list (list string * list (Row V))) start st kg :
  kg ∈ groups → ¬ length kg.2 < 2 →
  fit_ok (sort_values (ds_y kg.2)) = false →
  ∃ st', for_each (group_body level_name cols n)
                  (enumerate_from start groups) st = (inl FitError, st').
Proof.
  intros Hin Hlen Hfit. revert start st.
  induction groups as [|[k g] groups IH]; intros start st;
    [by inversion Hin|].
  simpl.
  set (pr := if decide (1 < n)
             then print (MsgForecastingGroup (start + 1) n k)
             else ret ()).
  assert (∃ st1, pr st = (inr (), st1)) as (st1 & Hpr).
  { unfold pr. case_decide; eexists; done. }
  unfold bind at 1. unfold bind at 1. fold pr. rewrite Hpr.
  apply elem_of_cons in Hin as [-> | Hin].
  - simpl in *. rewrite decide_False by done.
    rewrite forecast_group_fail by done. by eexists.
  - case_decide.
    + destruct (IH Hin (S start) st1) as (st' & Hloop).
      exists st'. by rewrite <- Hloop.
    + destruct (fit_ok (sort_values (ds_y g))) eqn:Hg.
      * rewrite forecast_group_ok by done.
        edestruct (IH Hin (S start)) as (st' & Hloop).
        exists st'. by rewrite <- Hloop.
      * rewrite forecast_group_fail by done. by eexists.
Qed.

(** *** One level *)

Lemma dropna_present (cols : list string) d :
  Forall (λ c, c ∈ columns d) cols →
  dropna cols (copy d)
  = inr (MkDataFrame (columns d)
           (filter (λ r, is_Some (group_key cols r)) (rows d))).
Proof.
  intros Hcols. unfold dropna. simpl.
  assert (filter (λ c, c ∉ columns d) cols = []) as ->; [|done].
  induction Hcols as [|c cols Hc _ IH]; [done|].
  rewrite filter_cons. by rewrite decide_False by (by intros Hn).
Qed.

Lemma groupby_no_rows (cols : list string) (cd : DataFrame V) :
  rows cd = [] → groupby cols cd = [].
Proof. intros Hrows. unfold groupby. by rewrite Hrows. Qed.

Lemma process_level_ok level_name cols d st :
  df st = Some d →
  Forall (λ c, c ∈ columns d) cols →
  (∀ kg, kg ∈ fit_candidates cols d →
         fit_ok (sort_values (ds_y kg.2)) = true) →
  ∃ st', process_level (level_name, cols) st = (inr (), st')
    ∧ all_forecasts st'
      = all_forecasts st
        ++ (group_frame level_name cols <$> fit_candidates cols d).
Proof.
  intros Hdf Hcols Hfit. unfold process_level.
  unfold bind at 1. simpl. unfold bind at 1. unfold get_df. simpl.
  rewrite Hdf. destruct cols as [|c cols].
  - unfold fit_candidates in *. unfold bind at 1. simpl.
    case_decide as Hlen.
    + eexists. split; [done|]. simpl. by rewrite app_nil_r.
    + unfold bind. rewrite forecast_group_ok by (apply (Hfit ([], rows d)); left).
      eexists. split; [done|]. done.
  - unfold fit_candidates in *. rewrite dropna_present in * by done.
    set (cd := MkDataFrame _ _) in *.
    unfold bind at 1, lift, ret.
    destruct (rows cd) as [|r rs] eqn:Hrows.
    { rewrite groupby_no_rows by done. eexists. split; [done|].
      simpl. by rewrite app_nil_r. }
    unfold bind at 1. simpl. unfold bind at 1.
    edestruct (group_loop_ok level_name (c :: cols)
                 (length (groupby (c :: cols) cd))
                 (groupby (c :: cols) cd) 0) as (st' & Hloop & Hst').
    { intros kg Hkg Hlen. apply Hfit. by apply list_elem_of_filter. }
    unfold enumerate. rewrite Hloop. eexists. split; [done|].
    simpl. by rewrite Hst'.
Qed.

Lemma process_level_fail level_name cols d st kg :
  df st = Some d →
  kg ∈ fit_candidates cols d →
  fit_ok (sort_values (ds_y kg.2)) = false →
  ∃ e st', process_level (level_name, cols) st = (inl e, st').
Proof.
  intros Hdf Hkg Hfit. unfold process_level.
  unfold bind at 1. simpl. unfold bind at 1. unfold get_df. simpl.
  rewrite Hdf. destruct cols as [|c cols].
  - unfold fit_candidates in Hkg. unfold bind at 1. simpl.
    case_decide as Hlen; [by inversion Hkg|].
    apply list_elem_of_singleton in Hkg as ->. simpl in Hfit.
    unfold bind. rewrite forecast_group_fail by done. by eexists _, _.
  - unfold fit_candidates in Hkg.
    destruct (dropna (c :: cols) (copy d)) as [e|cd] eqn:Hdrop;
      [by inversion Hkg|].
    apply list_elem_of_filter in Hkg as [Hlen Hkg].
    unfold bind at 1. simpl.
    destruct (rows cd) as [|r rs] eqn:Hrows.
    { rewrite groupby_no_rows in Hkg by done. by inversion Hkg. }
    unfold bind at 1. simpl. unfold bind at 1.
    edestruct (group_loop_fail level_name (c :: cols)
                 (length (groupby (c :: cols) cd))
                 (groupby (c :: cols) cd) 0) as (st' & Hloop); [done..|].
    unfold enumerate. rewrite Hloop. by eexists _, _.
Qed.

(** *** All the levels *)

#[local] Arguments process_level : simpl never.

Lemma process_levels_ok (levels : list Level) d st :
  df st = Some d →
  (∀ level, level ∈ levels → Forall (λ c, c ∈ columns d) level.2) →
  (∀ level kg, level ∈ levels → kg ∈ fit_candidates level.2 d →
               fit_ok (sort_values (ds_y kg.2)) = true) →
  ∃ st', process_levels levels st = (inr (), st')
    ∧ all_forecasts st' = all_forecasts st ++ all_frames levels d.
Proof.
  revert st. induction levels as [|[level_name cols] levels IH];
    intros st Hdf Hcols Hfit.
  - eexists. split; [done|]. unfold all_frames. simpl. by rewrite app_nil_r.
  - destruct (process_level_ok level_name cols d st) as (st1 & Hlevel & Hst1);
      [done | by apply (Hcols (level_name, cols)); left
            | intros kg; by apply (Hfit (level_name, cols)); left |].
    destruct (IH st1) as (st' & Hrest & Hst').
    { pose proof (process_level_same_world (level_name, cols) st) as Hsw.
      rewrite Hlevel in Hsw. destruct Hsw as [Hd _]. simpl in Hd.
      by rewrite Hd. }
    { intros. apply Hcols. by right. }
    { intros level kg ?. apply Hfit. by right. }
    exists st'. unfold process_levels in *. simpl. unfold bind.
    rewrite Hlevel, Hrest. split; [done|].
    rewrite Hst', Hst1. unfold all_frames. simpl. by rewrite app_assoc.
Qed.

Lemma process_levels_fail (levels : list Level) d st level kg :
  df st = Some d →
  level ∈ levels →
  kg ∈ fit_candidates level.2 d →
  fit_ok (sort_values (ds_y kg.2)) = false →
  ∃ e st', process_levels levels st = (inl e, st').
Proof.
  intros Hdf Hlevel Hkg Hfit. revert st Hdf.
  induction levels as [|level' levels IH]; intros st Hdf;
    [by inversion Hlevel|].
  unfold process_levels in *. simpl. unfold bind.
  destruct (process_level level' st) as [[e|[]] st1] eqn:Hfirst;
    [by eexists _, _|].
  apply elem_of_cons in Hlevel as [<- | Hlevel].
  - destruct level as [level_name cols].
    destruct (process_level_fail level_name cols d st kg) as (e & st' & Hf);
      [done..|]. congruence.
  - apply IH; [done|].
    pose proof (process_level_same_world level' st) as Hsw.
    rewrite Hfirst in Hsw. destruct Hsw as [Hd _]. simpl in Hd.
    by rewrite Hd.
Qed.
End Levels.

(** ** The whole script, phase by phase *)

Section Phases.
Context {V : Type} {model : Forecaster V}.
Implicit Types (st : State V) (d : DataFrame V) (env : Env).

#[local] Arguments process_levels : simpl never.
#[local] Arguments final_table : simpl never.

(** A failed load goes straight to the handler of line 167. *)
Lemma script_load_error env levels (e : Exn) :
  script env levels (inl e)
  = MkOutcome 0 [MsgStarted; MsgReading; MsgScriptFailed e; MsgFinished]
              None [].
Proof. reflexivity. Qed.

Lemma write_output_empty levels st :
  all_forecasts st = [] →
  write_output levels st = (inl (ValueError NO_FORECASTS), st).
Proof.
  intros Hall. unfold write_output, bind, get_all_forecasts. by rewrite Hall.
Qed.

Lemma write_output_some levels st :
  all_forecasts st ≠ [] →
  write_output levels st
  = (inr (), MkState (df st) (all_forecasts st)
               ((stdout st ++ [MsgCombining]) ++ [MsgSaved])
               (Some (final_table levels (all_forecasts st)))
               (git_calls st)).
Proof.
  intros Hall. unfold write_output, bind, get_all_forecasts. simpl.
  destruct (all_forecasts st) eqn:E; [done|].
  unfold print. simpl. by rewrite E.
Qed.

(** The publish step never raises: its two handlers cover everything
    [subprocess.run] raises. *)
Lemma publish_catches env st :
  ∃ st', publish env st = (inr (), st')
    ∧ df st' = df st ∧ all_forecasts st' = all_forecasts st
    ∧ out_file st' = out_file st
    ∧ (∀ e, MsgScriptFailed e ∈ stdout st' → MsgScriptFailed e ∈ stdout st)
    ∧ (∀ cmd, cmd ∈ git_calls st' → cmd ∉ git_calls st →
         (git env cmd = GitNotFound → MsgGitNotFound ∈ stdout st')
         ∧ (∀ err out, git env cmd = GitFailed err out →
                       MsgGitFailed err out ∈ stdout st')
         ∧ (∀ m, cmd = ["git"; "commit"; "-m"; m] →
                 m = "Auto-update sales forecast: " +:+ now env)).
Proof.
  unfold publish, try_except, bind, subprocess_run, print, commit_message.
  simpl.
  repeat match goal with
    | |- context [match git env ?c with _ => _ end] =>
        destruct (git env c) eqn:?; simpl
    | |- context [if contains ?a ?b then _ else _] =>
        destruct (contains a b) eqn:?; simpl
    end;
    (eexists; split; [reflexivity|]; simpl; split_and!; try done;
     [ intros e; rewrite ?elem_of_app, ?elem_of_cons, ?elem_of_nil;
       intuition discriminate
     | intros cmd Hin Hnot;
       rewrite ?elem_of_app, ?elem_of_cons, ?elem_of_nil in Hin;
       decompose [or] Hin; try done; subst;
       (split_and!;
        [ intros Hg; same_git; list_mem
        | intros err out Hg; same_git; list_mem
        | intros m [=]; by subst ]) ]).
Qed.

Lemma script_phases env levels d :
  script env levels (inr d)
  = match process_levels levels (loaded_state d) with
    | (inl e, st1) => failed e st1
    | (inr _, st1) =>
        match write_output levels st1 with
        | (inl e, st2) => failed e st2
        | (inr _, st2) =>
            match publish env st2 with
            | (inl e, st3) => failed e st3
            | (inr _, st3) => finished st3
            end
        end
    end.
Proof.
  unfold script, main, try_block, try_except, load, bind, print, lift, ret,
    set_df, initial_state.
  cbn -[process_levels write_output publish].
  change (MkState (Some d) [] [MsgStarted; MsgReading] None [])
    with (loaded_state d).
  destruct (process_levels levels (loaded_state d)) as [[e|[]] st1];
    [reflexivity|].
  destruct (write_output levels st1) as [[e|[]] st2]; [reflexivity|].
  destruct (publish env st2) as [[e|[]] st3]; reflexivity.
Qed.

(** The loop starts from a state with no file and no [git] command, and
    leaves both alone. *)
Lemma process_levels_loaded levels d r st1 :
  process_levels levels (loaded_state d) = (r, st1) →
  df st1 = Some d ∧ out_file st1 = None ∧ git_calls st1 = [].
Proof.
  intros Hrun. pose proof (process_levels_same_world levels (loaded_state d)) as Hsw.
  rewrite Hrun in Hsw. exact Hsw.
Qed.

Lemma script_loop_failed env levels d e st1 :
  process_levels levels (loaded_state d) = (inl e, st1) →
  script env levels (inr d) = failed e st1
  ∧ out_file st1 = None ∧ git_calls st1 = [].
Proof.
  intros Hrun. rewrite script_phases, Hrun. split; [done|].
  by apply process_levels_loaded in Hrun as (_ & ? & ?).
Qed.

Lemma script_no_forecasts env levels d st1 :
  process_levels levels (loaded_state d) = (inr (), st1) →
  all_forecasts st1 = [] →
  script env levels (inr d) = failed (ValueError NO_FORECASTS) st1
  ∧ out_file st1 = None ∧ git_calls st1 = [].
Proof.
  intros Hrun Hall. rewrite script_phases, Hrun.
  rewrite write_output_empty by done. split; [done|].
  by apply process_levels_loaded in Hrun as (_ & ? & ?).
Qed.

Lemma script_published env levels d st1 :
  process_levels levels (loaded_state d) = (inr (), st1) →
  all_forecasts st1 ≠ [] →
  ∃ st3, script env levels (inr d) = finished st3
    ∧ out_file st3 = Some (final_table levels (all_forecasts st1))
    ∧ (∀ e, MsgScriptFailed e ∉ stdout st3)
    ∧ (∀ cmd, cmd ∈ git_calls st3 →
         (git env cmd = GitNotFound → MsgGitNotFound ∈ stdout st3)
         ∧ (∀ err out, git env cmd = GitFailed err out →
                       MsgGitFailed err out ∈ stdout st3)
         ∧ (∀ m, cmd = ["git"; "commit"; "-m"; m] →
                 m = "Auto-update sales forecast: " +:+ now env)).
Proof.
  intros Hrun Hall. rewrite script_phases, Hrun.
  rewrite write_output_some by done.
  destruct (publish_catches env
    (MkState (df st1) (all_forecasts st1)
             ((stdout st1 ++ [MsgCombining]) ++ [MsgSaved])
             (Some (final_table levels (all_forecasts st1)))
             (git_calls st1)))
    as (st3 & -> & _ & _ & Hfile & Hmsg & Hgit).
  exists st3. split; [done|]. split; [done|].
  pose proof (process_levels_no_failure levels (loaded_state d)) as Hnf.
  pose proof (process_levels_loaded _ _ _ _ Hrun) as (_ & _ & Hcalls).
  rewrite Hrun in Hnf. simpl in *. split.
  - intros e He. apply Hmsg in He.
    rewrite !elem_of_app, !list_elem_of_singleton in He.
    destruct He as [[He|?]|?]; [|done..].
    apply Hnf in He. simpl in He.
    rewrite !elem_of_cons, elem_of_nil in He. by destruct He as [?|[?|[]]].
  - intros cmd Hcmd. apply Hgit; [done|]. rewrite Hcalls. apply not_elem_of_nil.
Qed.

(** Whatever happens, the interpreter leaves with status 0. *)
Lemma script_exit_code env levels (input : Exn + DataFrame V) :
  exit_code (script env levels input) = 0.
Proof.
  destruct input as [e|d]; [done|]. rewrite script_phases.
  destruct (process_levels _ _) as [[e|[]] st1]; [done|].
  destruct (write_output _ _) as [[e|[]] st2]; [done|].
  by destruct (publish _ _) as [[e|[]] st3].
Qed.

(** The file written, if any, is the table of the frames the loop
    collected; it does not depend on the environment. *)
Lemma script_written env levels d :
  written (script env levels (inr d))
  = match process_levels levels (loaded_state d) with
    | (inr _, st1) =>
        match all_forecasts st1 with
        | [] => None
        | _ :: _ => Some (final_table levels (all_forecasts st1))
        end
    | (inl _, _) => None
    end.
Proof.
  destruct (process_levels levels (loaded_state d)) as [[e|[]] st1] eqn:Hrun.
  - by destruct (script_loop_failed env levels d e st1 Hrun) as (-> & ? & _).
  - destruct (all_forecasts st1) as [|f fs] eqn:Hall.
    + by destruct (script_no_forecasts env levels d st1 Hrun Hall)
        as (-> & ? & _).
    + destruct (script_published env levels d st1 Hrun) as (st3 & -> & ? & _);
        [by rewrite Hall|]. simpl. by rewrite <- Hall.
Qed.
End Phases.

(** ** The output table *)

Lemma digit_value_digit (n : nat) : digit_value (digit n) = n mod 10.
Proof.
  unfold digit_value, digit.
  pose proof (Nat.mod_upper_bound n 10 ltac:(done)).
  rewrite nat_ascii_embedding by lia. lia.
Qed.

Lemma decimal_digits_2 (n : nat) :
  n < 100 → 10 * ((n / 10) mod 10) + n mod 10 = n.
Proof.
  intros Hn.
  pose proof (Nat.div_mod_eq n 10).
  assert (n / 10 < 10) by (apply Nat.Div0.div_lt_upper_bound; lia).
  rewrite (Nat.mod_small (n / 10) 10) by done. lia.
Qed.

Lemma decimal_digits_4 (n : nat) :
  n < 100 * 100 →
  1000 * ((n / 1000) mod 10) + 100 * ((n / 100) mod 10)
  + 10 * ((n / 10) mod 10) + n mod 10 = n.
Proof.
  intros Hn.
  pose proof (Nat.div_mod_eq n 10) as H1.
  pose proof (Nat.div_mod_eq (n / 10) 10) as H2.
  pose proof (Nat.div_mod_eq (n / 100) 10) as H3.
  assert (n / 10 / 10 = n / 100) as E1 by (by rewrite Nat.Div0.div_div).
  assert (n / 100 / 10 = n / 1000) as E2 by (by rewrite Nat.Div0.div_div).
  rewrite E1 in H2. rewrite E2 in H3.
  assert (n / 1000 < 10) by (apply Nat.Div0.div_lt_upper_bound; lia).
  rewrite (Nat.mod_small (n / 1000) 10) by done.
  lia.
Qed.

(** The text of a date has ten characters, two of them hyphens, and reads
    back as the date. *)
Lemma iso_date_format (d : date) :
  String.length (iso_date d) = 10
  ∧ String.get 4 (iso_date d) = Some "-"%char
  ∧ String.get 7 (iso_date d) = Some "-"%char.
Proof. split_and!; reflexivity. Qed.

Lemma parse_iso_digits (d : date) :
  parse_iso (iso_date d)
  = Some (Date (1000 * digit_value (digit (year d / 1000))
                + 100 * digit_value (digit (year d / 100))
                + 10 * digit_value (digit (year d / 10))
                + digit_value (digit (year d)))
               (10 * digit_value (digit (month d / 10))
                + digit_value (digit (month d)))
               (10 * digit_value (digit (day d / 10))
                + digit_value (digit (day d)))).
Proof. reflexivity. Qed.

Lemma parse_iso_date (d : date) :
  year d < 100 * 100 → month d < 100 → day d < 100 →
  parse_iso (iso_date d) = Some d.
Proof.
  intros Hy Hm Hd. rewrite parse_iso_digits, !digit_value_digit.
  rewrite decimal_digits_4, !decimal_digits_2 by done. by destruct d.
Qed.

Lemma set_keys_unused (cols keys : list string) (c : string) :
  c ∉ cols → set_keys cols keys !! c = None.
Proof.
  unfold set_keys. intros Hc.
  assert (∀ m : gmap string string,
            foldl (λ m ck, <[ck.1 := ck.2]> m) m (zip cols keys) !! c = m !! c)
    as Hfold; [|by rewrite Hfold].
  revert keys. induction cols as [|c' cols IH]; intros keys m; [done|].
  destruct keys as [|k keys]; [done|]. simpl.
  rewrite IH by (intros ?; apply Hc; by right).
  apply lookup_insert_ne. intros ->. apply Hc. left.
Qed.

Lemma elem_of_all_key_cols_flat (levels : list Level) (c : string) :
  c ∈ all_key_cols_flat levels ↔ ∃ level, level ∈ levels ∧ c ∈ level.2.
Proof.
  unfold all_key_cols_flat.
  rewrite merge_sort_Permutation, elem_of_remove_dups, list_elem_of_join.
  split.
  - intros (l & Hc & (level & -> & Hl)%list_elem_of_fmap). eauto.
  - intros (level & Hl & Hc). exists level.2. split; [done|].
    by apply list_elem_of_fmap_2.
Qed.

Lemma all_key_cols_flat_sorted (levels : list Level) :
  NoDup (all_key_cols_flat levels) ∧ Sorted String.le (all_key_cols_flat levels).
Proof.
  unfold all_key_cols_flat. split.
  - rewrite merge_sort_Permutation. apply NoDup_remove_dups.
  - apply (Sorted_merge_sort String.le).
Qed.

Lemma final_row_cells {V} (key_cols : list string) (r : FRow V) :
  length (final_row key_cols r) = 2 + length key_cols + 4
  ∧ final_row key_cols r !! 0 = Some (CStr (iso_date (f_ds r)))
  ∧ final_row key_cols r !! 1 = Some (CStr (ForecastLevel r))
  ∧ (∀ i c, key_cols !! i = Some c →
            final_row key_cols r !! (2 + i) = Some (key_cell r c))
  ∧ final_row key_cols r !! (2 + length key_cols)
    = Some (from_option CNum CNull (Actual r)).
Proof.
  unfold final_row. split_and!; [|done|done| |].
  - rewrite !length_app, length_fmap. simpl. lia.
  - intros i c Hc. simpl. rewrite lookup_app_l
      by (rewrite length_fmap; by eapply lookup_lt_Some).
    by rewrite list_lookup_fmap, Hc.
  - simpl. rewrite lookup_app_r by (by rewrite length_fmap).
    by rewrite length_fmap, Nat.sub_diag.
Qed.

(** ** What a frame covers *)



Section Coverage.
Context {V : Type} {model : Forecaster V}.



End Coverage.

(** ** Grouping *)

Section Grouping.
Context {V : Type}.
Implicit Types (d cd : DataFrame V) (g : list (Row V)) (k : list string).

Lemma group_key_Some (cols : list string) (r : Row V) k :
  group_key cols r = Some k ↔ Forall2 (λ c v, attrs r !! c = Some v) cols k.
Proof. unfold group_key. apply mapM_Some. Qed.

Lemma groupby_keys (cols : list string) cd :
  (groupby cols cd).*1
  = merge_sort keys_le (remove_dups (omap (group_key cols) (rows cd))).
Proof.
  unfold groupby. generalize (merge_sort keys_le
    (remove_dups (omap (group_key cols) (rows cd)))) as keys.
  induction keys as [|k keys IH]; [done|]. rewrite !fmap_cons. by f_equal.
Qed.

Lemma NoDup_groupby_keys (cols : list string) cd :
  NoDup (groupby cols cd).*1.
Proof.
  rewrite groupby_keys. rewrite merge_sort_Permutation.
  apply NoDup_remove_dups.
Qed.

Lemma elem_of_groupby (cols : list string) cd k g :
  (k, g) ∈ groupby cols cd ↔
  (∃ r, r ∈ rows cd ∧ group_key cols r = Some k)
  ∧ g = filter (λ r, group_key cols r = Some k) (rows cd).
Proof.
  unfold groupby. rewrite list_elem_of_fmap. split.
  - intros (k' & [= -> ->] & Hk). split; [|done].
    rewrite merge_sort_Permutation, elem_of_remove_dups in Hk.
    by apply list_elem_of_omap in Hk.
  - intros [Hr ->]. exists k. split; [done|].
    rewrite merge_sort_Permutation, elem_of_remove_dups.
    by apply list_elem_of_omap.
Qed.

(** The rows of a key tuple are the same before and after [dropna]. *)
Lemma filter_key_dropna (cols : list string) (l : list (Row V)) k :
  filter (λ r, group_key cols r = Some k)
         (filter (λ r, is_Some (group_key cols r)) l)
  = filter (λ r, group_key cols r = Some k) l.
Proof. apply list_filter_filter_l. intros r ->. by eexists. Qed.

(** The groups of a keyed level that reach the model. *)
Lemma elem_of_fit_candidates (cols : list string) d k g :
  cols ≠ [] →
  Forall (λ c, c ∈ columns d) cols →
  (k, g) ∈ fit_candidates cols d ↔
  g = filter (λ r, group_key cols r = Some k) (rows d) ∧ 2 ≤ length g.
Proof.
  intros Hne Hcols. unfold fit_candidates.
  destruct cols as [|c cols]; [done|].
  rewrite dropna_present by done.
  rewrite list_elem_of_filter, elem_of_groupby. cbn [rows fst snd].
  rewrite filter_key_dropna. split.
  - intros (Hlen & _ & ->). split; [done | lia].
  - intros [-> Hlen]. split; [lia|]. split; [|done].
    destruct (filter _ (rows d)) as [|r g] eqn:Hg; [simpl in Hlen; lia|].
    assert (r ∈ filter (λ r, group_key (c :: cols) r = Some k) (rows d))
      as [Hk Hr]%list_elem_of_filter by (rewrite Hg; left).
    exists r. split; [|done]. apply list_elem_of_filter. split; [by eexists | done].
Qed.

Lemma NoDup_fit_candidates (cols : list string) d :
  NoDup (fit_candidates cols d).*1.
Proof.
  unfold fit_candidates. destruct cols as [|c cols].
  - case_decide; [constructor | apply NoDup_singleton].
  - destruct (dropna _ _) as [e|cd]; [constructor|].
    eapply sublist_NoDup; [apply NoDup_groupby_keys|].
    apply fmap_sublist, sublist_filter.
Qed.
End Grouping.

(** * The specification, claim by claim *)

Section Claims.
Context {V : Type} {model : Forecaster V}.
Implicit Types (st : State V) (d : DataFrame V) (env : Env).

(** C10.  Every level works on its own copy of the loaded frame: neither
    one level ([process_level]) nor any number of them
    ([process_levels], here the levels before position [i]) changes the
    variable [df], whether they end normally or by an exception; so the
    level at any position starts from the frame that was loaded, and it
    leaves it as it found it. *)
Theorem each_level_sees_the_loaded_frame (levels : list Level) st
    (i : nat) (level : Level) :
  let before := (process_levels (take i levels) st).2 in
  df before = df st ∧ df (process_level level before).2 = df st.
Proof.
  simpl.
  destruct (process_levels_same_world (take i levels) st) as [Hbefore _].
  destruct (process_level_same_world level
              (process_levels (take i levels) st).2) as [Hlevel _].
  split; congruence.
Qed.


(** C7.  When a run has written its output file, the publish step cannot
    make it fail: the run exits with status 0, the failure banner of the
    outer handler is never printed, the same file is written whatever the
    [git] commands do, and each [git] command that was issued and failed
    (no executable, or a non-zero exit of add, status, commit or push)
    is reported on the standard output. *)
Theorem publish_failure_is_not_fatal env (levels : list Level)
    (input : Exn + DataFrame V) (t : Table V) :
  written (script env levels input) = Some t →
  let o := script env levels input in
  exit_code o = 0
  ∧ (∀ e, MsgScriptFailed e ∉ printed o)
  ∧ last (printed o) = Some MsgFinished
  ∧ (∀ env', written (script env' levels input) = Some t)
  ∧ (∀ cmd, cmd ∈ git_log o →
       (git env cmd = GitNotFound → MsgGitNotFound ∈ printed o)
       ∧ (∀ err out, git env cmd = GitFailed err out →
                     MsgGitFailed err out ∈ printed o)).
Proof.
  intros Hwritten o. split; [apply script_exit_code|].
  destruct input as [e|d]; [done|]. subst o.
  assert (∀ env', written (script env' levels (inr d)) = Some t) as Hall.
  { intros env'. rewrite <- Hwritten. by rewrite !script_written. }
  destruct (process_levels levels (loaded_state d)) as [[e|[]] st1] eqn:Hrun.
  { destruct (script_loop_failed env levels d e st1 Hrun) as (Hs & Hf & _).
    rewrite Hs in Hwritten. simpl in Hwritten. congruence. }
  destruct (all_forecasts st1) as [|f fs] eqn:Hfs.
  { destruct (script_no_forecasts env levels d st1 Hrun Hfs) as (Hs & Hf & _).
    rewrite Hs in Hwritten. simpl in Hwritten. congruence. }
  destruct (script_published env levels d st1 Hrun)
    as (st3 & -> & _ & Hnf & Hgit); [by rewrite Hfs|].
  simpl. split_and!.
  - intros e. rewrite elem_of_app, list_elem_of_singleton.
    intros [He|?]; [by apply (Hnf e) | done].
  - by rewrite last_snoc.
  - done.
  - intros cmd Hcmd. destruct (Hgit cmd Hcmd) as (H1 & H2 & _). split.
    + intros Hg. apply elem_of_app. left. by apply H1.
    + intros err out Hg. apply elem_of_app. left. by apply H2.
Qed.

(** C2, as amended.  When the loop over the levels ends and has collected
    no forecast, line 108 raises before anything is written: the outer
    handler reports the error, no file is written, no [git] command is
    issued, and the script then runs to its end, so its exit status
    is 0. *)
Theorem no_forecasts_is_reported_not_written env (levels : list Level) d st1 :
  process_levels levels (loaded_state d) = (inr (), st1) →
  all_forecasts st1 = [] →
  let o := script env levels (inr d) in
  printed o = (stdout st1 ++ [MsgScriptFailed (ValueError NO_FORECASTS)])
                ++ [MsgFinished]
  ∧ written o = None
  ∧ git_log o = []
  ∧ exit_code o = 0.
Proof.
  intros Hrun Hall o. subst o.
  destruct (script_no_forecasts env levels d st1 Hrun Hall) as (-> & ? & ?).
  done.
Qed.

(** C1, as amended.  When the model cannot be fitted on a group that
    reaches it, in any level, the exception leaves both loops: the outer
    handler reports a failure and the run stops there.  No file is
    written, so the frames of the groups and levels processed before are
    dropped too, no [git] command is issued, and the exit status is 0. *)
Theorem fit_failure_aborts_the_run env (levels : list Level) d
    (level : Level) (kg : list string * list (Row V)) :
  level ∈ levels →
  kg ∈ fit_candidates level.2 d →
  fit_ok (sort_values (ds_y kg.2)) = false →
  let o := script env levels (inr d) in
  written o = None
  ∧ git_log o = []
  ∧ (∃ e, last (printed o) = Some MsgFinished
          ∧ MsgScriptFailed e ∈ printed o)
  ∧ exit_code o = 0.
Proof.
  intros Hlevel Hkg Hfit o. subst o.
  destruct (process_levels_fail levels d (loaded_state d) level kg)
    as (e & st1 & Hrun); [done..|].
  destruct (script_loop_failed env levels d e st1 Hrun) as (-> & ? & ?).
  simpl. split_and!; [done | done | | done].
  exists e. rewrite last_snoc. split; [done|].
  rewrite !elem_of_app, !list_elem_of_singleton. auto.
Qed.

(** C5.  For a level with grouping columns that the loaded frame has, the
    groups that reach the model are exactly the classes of the records
    by key tuple that have at least two records: a class gathers the
    records whose key columns are all non-null and hold the tuple [k];
    no two groups share a key tuple; and when the model can be fitted on
    each of these groups, the level ends without an exception and appends
    one frame per such group, in order, and nothing else (the smaller
    classes are passed over silently). *)
Theorem keyed_level_forecasts_its_partition (level_name : string)
    (cols : list string) d st :
  cols ≠ [] →
  Forall (λ c, c ∈ columns d) cols →
  (∀ k g, (k, g) ∈ fit_candidates cols d ↔
          g = filter (λ r, group_key cols r = Some k) (rows d)
          ∧ 2 ≤ length g)
  ∧ (∀ (r : Row V) k, group_key cols r = Some k ↔
                      Forall2 (λ c v, attrs r !! c = Some v) cols k)
  ∧ NoDup (fit_candidates cols d).*1
  ∧ (df st = Some d →
     (∀ kg, kg ∈ fit_candidates cols d →
            fit_ok (sort_values (ds_y kg.2)) = true) →
     ∃ st', process_level (level_name, cols) st = (inr (), st')
       ∧ all_forecasts st'
         = all_forecasts st
           ++ (group_frame level_name cols <$> fit_candidates cols d)).
Proof.
  intros Hne Hcols. split_and!.
  - intros k g. by apply elem_of_fit_candidates.
  - intros r k. apply group_key_Some.
  - apply NoDup_fit_candidates.
  - intros Hdf Hfit. by apply process_level_ok.
Qed.

(** C6, as amended.  The level with no grouping column forms at most one
    group, made of all the loaded records, those with a null value
    included: with fewer than two records nothing is forecast and the
    level ends normally; with two or more, and a model that can be
    fitted, exactly one frame is appended, computed from the series of
    all the records. *)
Theorem overall_level_takes_all_records (level_name : string) d st :
  df st = Some d →
  (length (rows d) < 2 →
   ∃ st', process_level (level_name, []) st = (inr (), st')
          ∧ all_forecasts st' = all_forecasts st)
  ∧ (2 ≤ length (rows d) →
     fit_ok (sort_values (ds_y (rows d))) = true →
     ∃ st', process_level (level_name, []) st = (inr (), st')
       ∧ all_forecasts st'
         = all_forecasts st
           ++ [forecast_frame level_name [] []
                 (sort_values (ds_y (rows d)))])
  ∧ sort_values (ds_y (rows d)) ≡ₚ (λ r, (ds r, y r)) <$> rows d.
Proof.
  intros Hdf. split_and!.
  - intros Hlen.
    destruct (process_level_ok level_name [] d st) as (st' & Hrun & Hall);
      [done | constructor | |].
    + unfold fit_candidates. rewrite decide_True by done. by inversion 1.
    + exists st'. split; [done|]. rewrite Hall. unfold fit_candidates.
      rewrite decide_True by done. apply app_nil_r.
  - intros Hlen Hfit.
    destruct (process_level_ok level_name [] d st) as (st' & Hrun & Hall);
      [done | constructor | |].
    + unfold fit_candidates. rewrite decide_False by lia.
      by intros kg ->%list_elem_of_singleton.
    + exists st'. split; [done|]. rewrite Hall. unfold fit_candidates.
      by rewrite decide_False by lia.
  - apply sort_values_Permutation.
Qed.


(** C4.  Whenever a file is written, its columns are [Date],
    [ForecastLevel], the key columns of all the configured levels (each
    once, in sorted order), [Actual], [Forecast], [Forecast_Low] and
    [Forecast_High], in this order: they depend on the configuration
    only.  Every row has one cell per column, belongs to one of the
    levels, whose name it carries, has a null cell in each key column
    that this level does not use, and starts with its date as ten
    characters [YYYY-MM-DD] that read back as the date. *)
Theorem output_table_has_fixed_columns env (levels : list Level)
    (input : Exn + DataFrame V) (t : Table V) :
  written (script env levels input) = Some t →
  header t = ["Date"; "ForecastLevel"] ++ all_key_cols_flat levels
               ++ ["Actual"; "Forecast"; "Forecast_Low"; "Forecast_High"]
  ∧ NoDup (all_key_cols_flat levels)
  ∧ Sorted String.le (all_key_cols_flat levels)
  ∧ (∀ c, c ∈ all_key_cols_flat levels ↔
          ∃ level, level ∈ levels ∧ c ∈ level.2)
  ∧ (∀ row, row ∈ body t →
       length row = length (header t)
       ∧ ∃ (date : date) (level : Level),
           level ∈ levels
           ∧ row !! 0 = Some (CStr (iso_date date))
           ∧ String.length (iso_date date) = 10
           ∧ (year date < 100 * 100 → month date < 100 → day date < 100 →
              parse_iso (iso_date date) = Some date)
           ∧ row !! 1 = Some (CStr level.1)
           ∧ ∀ i c, all_key_cols_flat levels !! i = Some c →
                    c ∉ level.2 → row !! (2 + i) = Some CNull).
Proof.
  intros Hwritten. destruct input as [e|d]; [done|].
  rewrite script_written in Hwritten.
  pose proof (process_levels_grows levels (loaded_state d)) as Hgrows.
  destruct (process_levels levels (loaded_state d)) as [[e|[]] st1];
    [done|].
  destruct Hgrows as (new & Hnew & Hfrom). simpl in Hnew.
  destruct (all_forecasts st1) as [|f fs] eqn:Hfs; [done|].
  injection Hwritten as <-. rewrite Hnew in *. clear Hnew Hfs f fs.
  destruct (all_key_cols_flat_sorted levels) as [Hnd Hsorted].
  split_and!; [done | done | done | apply elem_of_all_key_cols_flat |].
  intros row Hrow. unfold final_table in Hrow. simpl in Hrow.
  apply list_elem_of_fmap in Hrow as (r & -> & Hr).
  apply list_elem_of_join in Hr as (frame & Hr & Hframe).
  rewrite Forall_forall in Hfrom.
  destruct (Hfrom frame Hframe) as (level & d' & kg & Hlevel & _ & ->).
  apply forecast_frame_tags in Hr as (Hname & Hkeys & _).
  destruct (final_row_cells (all_key_cols_flat levels) r)
    as (Hlen & Hdate & Hlvl & Hkey & _).
  split.
  { rewrite Hlen. unfold final_table, final_output_cols. simpl.
    rewrite length_app. simpl. lia. }
  exists (f_ds r), level. split_and!; [done | done | | | | ].
  - apply iso_date_format.
  - apply parse_iso_date.
  - by rewrite Hlvl, Hname.
  - intros i c Hc Hunused. rewrite (Hkey i c Hc). unfold key_cell.
    by rewrite Hkeys, set_keys_unused.
Qed.

End Claims.

(** * The claims on the sample data *)

(** C7 on a run whose [git push] fails: the file is there, the failure is
    printed, the status is 0. *)
Lemma publish_failure_is_not_fatal_witness :
  let o := script (model := Sample.model) Sample.no_remote
             FORECAST_LEVELS (inr Sample.bcodes) in
  (∃ t, written o = Some t)
  ∧ exit_code o = 0
  ∧ MsgGitFailed "fatal: No configured push destination." "" ∈ printed o.
Proof.
  intros o. split; [eexists; vm_compute; reflexivity|].
  assert (∃ t, written o = Some t) as [t Ht]
    by (eexists; vm_compute; reflexivity).
  destruct (publish_failure_is_not_fatal (model := Sample.model)
              Sample.no_remote FORECAST_LEVELS (inr Sample.bcodes) t Ht)
    as (Hexit & _ & _ & _ & Hgit).
  split; [exact Hexit|].
  apply (Hgit ["git"; "push"]); [in_computed_list | vm_compute; reflexivity].
Defined.


(** C2 as stated fails on a frame without records: every level is skipped,
    line 108 raises, nothing is written, and yet the exit status is 0. *)
Lemma no_forecasts_exit_status_cex :
  let run := process_levels (model := Sample.model) FORECAST_LEVELS
               (loaded_state Sample.no_rows) in
  let o := script (model := Sample.model) Sample.healthy
             FORECAST_LEVELS (inr Sample.no_rows) in
  run.1 = inr () ∧ all_forecasts run.2 = []
  ∧ MsgScriptFailed (ValueError NO_FORECASTS) ∈ printed o
  ∧ ¬ (written o = None ∧ exit_code o ≠ 0).
Proof.
  intros run o.
  split_and!; [vm_compute; reflexivity | vm_compute; reflexivity
              | in_computed_list |].
  intros [_ Hexit]. by apply Hexit.
Qed.

Lemma no_forecasts_is_reported_not_written_witness :
  let run := process_levels (model := Sample.model) FORECAST_LEVELS
               (loaded_state Sample.no_rows) in
  let o := script (model := Sample.model) Sample.healthy
             FORECAST_LEVELS (inr Sample.no_rows) in
  run = (inr (), run.2) ∧ all_forecasts run.2 = []
  ∧ written o = None ∧ git_log o = [] ∧ exit_code o = 0.
Proof.
  intros run o.
  assert (run = (inr (), run.2)) as Hrun by (vm_compute; reflexivity).
  assert (all_forecasts run.2 = []) as Hnone by (vm_compute; reflexivity).
  split; [exact Hrun|]. split; [exact Hnone|].
  exact (proj2 (no_forecasts_is_reported_not_written
                  (model := Sample.model) Sample.healthy FORECAST_LEVELS
                  Sample.no_rows run.2 Hrun Hnone)).
Defined.

(** C1 as stated fails when group A of level [By_BCode] cannot be fitted:
    group B could be, and the Overall level was already forecast, but the
    run is aborted and writes nothing. *)
Lemma fit_failure_is_not_isolated_cex :
  let d := Sample.one_bad_group in
  let group k := filter (λ r : Row nat, group_key ["BCode"] r = Some k) (rows d) in
  let o := script (model := Sample.model) Sample.healthy
             FORECAST_LEVELS (inr d) in
  (["A"], group ["A"]) ∈ fit_candidates ["BCode"] d
  ∧ Sample.can_fit (sort_values (ds_y (group ["A"]))) = false
  ∧ (["B"], group ["B"]) ∈ fit_candidates ["BCode"] d
  ∧ Sample.can_fit (sort_values (ds_y (group ["B"]))) = true
  ∧ Sample.can_fit (sort_values (ds_y (rows d))) = true
  ∧ written o = None
  ∧ last (printed o) = Some MsgFinished
  ∧ MsgScriptFailed FitError ∈ printed o.
Proof.
  intros d group o.
  split_and!; first [vm_compute; reflexivity | in_computed_list].
Qed.

Lemma fit_failure_aborts_the_run_witness :
  let d := Sample.one_bad_group in
  let kg := (["A"], filter (λ r : Row nat, group_key ["BCode"] r = Some ["A"])
                           (rows d)) in
  let o := script (model := Sample.model) Sample.healthy
             FORECAST_LEVELS (inr d) in
  ("By_BCode", ["BCode"]) ∈ FORECAST_LEVELS
  ∧ kg ∈ fit_candidates ["BCode"] d
  ∧ Sample.can_fit (sort_values (ds_y kg.2)) = false
  ∧ written o = None ∧ git_log o = [] ∧ exit_code o = 0.
Proof.
  intros d kg o.
  assert (("By_BCode", ["BCode"]) ∈ FORECAST_LEVELS) as Hlevel
    by in_computed_list.
  assert (kg ∈ fit_candidates ["BCode"] d) as Hkg by in_computed_list.
  assert (Sample.can_fit (sort_values (ds_y kg.2)) = false) as Hfit
    by (vm_compute; reflexivity).
  split_and!; [done | done | done | | |];
    apply (fit_failure_aborts_the_run (model := Sample.model)
             Sample.healthy FORECAST_LEVELS d ("By_BCode", ["BCode"]) kg
             Hlevel Hkg Hfit).
Defined.

(** C5 on scenario B of the spec: BCode values A, A, B.  Group A has two
    records and is forecast; group B has one and is not. *)
Lemma keyed_level_forecasts_its_partition_witness :
  let d := Sample.bcodes in
  let group k := filter (λ r : Row nat, group_key ["BCode"] r = Some k) (rows d) in
  ["BCode"] ≠ []
  ∧ Forall (λ c, c ∈ columns d) ["BCode"]
  ∧ (["A"], group ["A"]) ∈ fit_candidates ["BCode"] d
  ∧ ((["B"], group ["B"]) ∉ fit_candidates ["BCode"] d)
  ∧ (fit_candidates ["BCode"] d).*1 = [["A"]].
Proof.
  intros d group.
  assert (["BCode"] ≠ []) as Hne by done.
  assert (Forall (λ c, c ∈ columns d) ["BCode"]) as Hcols.
  { apply Forall_singleton. in_computed_list. }
  destruct (keyed_level_forecasts_its_partition (model := Sample.model)
              "By_BCode" ["BCode"] d (loaded_state d) Hne Hcols)
    as (Hgroups & _).
  split_and!; [done | done | | | vm_compute; reflexivity].
  - apply Hgroups. split; [reflexivity | vm_compute; lia].
  - intros [_ Hlen]%Hgroups. vm_compute in Hlen. lia.
Defined.

(** C6 as stated fails on three records of which the second has a null
    value: the frame of the Overall level is computed from the three of
    them (it has a row dated 2024-02-01), not from the two records with a
    value. *)
Lemma overall_level_keeps_null_values_cex :
  let d := Sample.null_value in
  let st' := (process_level (model := Sample.model) ("Overall", [])
                (loaded_state d)).2 in
  let with_value := filter (λ r : Row nat, is_Some (y r)) (rows d) in
  all_forecasts st'
  = [forecast_frame (model := Sample.model) "Overall" [] []
       (sort_values (ds_y (rows d)))]
  ∧ all_forecasts st'
    ≠ [forecast_frame (model := Sample.model) "Overall" [] []
         (sort_values (ds_y with_value))]
  ∧ Date 2024 2 1 ∈ f_ds <$> mjoin (all_forecasts st').
Proof.
  intros d st' with_value. split_and!.
  - vm_compute; reflexivity.
  - intros Heq. apply (f_equal (λ l, length <$> l)) in Heq.
    vm_compute in Heq. discriminate Heq.
  - in_computed_list.
Qed.

Lemma overall_level_takes_all_records_witness :
  let d := Sample.null_value in
  df (loaded_state d) = Some d
  ∧ 2 ≤ length (rows d)
  ∧ Sample.can_fit (sort_values (ds_y (rows d))) = true
  ∧ ∃ st', process_level (model := Sample.model) ("Overall", [])
             (loaded_state d) = (inr (), st')
     ∧ all_forecasts st'
       = [] ++ [forecast_frame (model := Sample.model) "Overall" [] []
                  (sort_values (ds_y (rows d)))].
Proof.
  intros d.
  assert (2 ≤ length (rows d)) as Hlen by (vm_compute; lia).
  assert (Sample.can_fit (sort_values (ds_y (rows d))) = true) as Hfit
    by (vm_compute; reflexivity).
  split_and!; [done | done | done |].
  exact (proj1 (proj2 (overall_level_takes_all_records
                         (model := Sample.model) "Overall" d
                         (loaded_state d) eq_refl)) Hlen Hfit).
Defined.


(** C4 on scenario B with the five levels of the script. *)
Lemma output_table_has_fixed_columns_witness :
  let o := script (model := Sample.model) Sample.no_git
             FORECAST_LEVELS (inr Sample.bcodes) in
  ∃ t, written o = Some t
       ∧ header t = ["Date"; "ForecastLevel"; "BCode"; "CustomerName";
                     "PSRCode"; "ProductCode"; "Actual"; "Forecast";
                     "Forecast_Low"; "Forecast_High"].
Proof.
  intros o.
  assert (∃ t, written o = Some t) as [t Ht]
    by (eexists; vm_compute; reflexivity).
  exists t. split; [exact Ht|].
  rewrite (proj1 (output_table_has_fixed_columns (model := Sample.model)
                    Sample.no_git FORECAST_LEVELS (inr Sample.bcodes) t Ht)).
  vm_compute; reflexivity.
Defined.


(** * Further properties of the script *)

Section Failures.
Context {V : Type} {model : Forecaster V}.
Implicit Types (st : State V) (d : DataFrame V) (env : Env).

#[local] Arguments dropna : simpl never.
#[local] Arguments groupby : simpl never.
#[local] Arguments group_key : simpl never.
#[local] Arguments forecast_group : simpl never.
#[local] Arguments group_frame : simpl never.
#[local] Arguments process_level : simpl never.




(** A level that names a column the frame does not have raises
    [KeyError] with the missing columns. *)
Lemma process_level_key_error level_name cols d st (c : string) :
  df st = Some d →
  c ∈ cols → c ∉ columns d →
  process_level (level_name, cols) st
  = (inl (KeyError (filter (λ c, c ∉ columns d) cols)),
     MkState (df st) (all_forecasts st)
             (stdout st ++ [MsgProcessingLevel level_name])
             (out_file st) (git_calls st)).
Proof.
  intros Hdf Hc Hmissing. unfold process_level.
  unfold bind at 1. simpl. unfold bind at 1. unfold get_df. simpl.
  rewrite Hdf. destruct cols as [|c0 cols]; [by inversion Hc|].
  unfold dropna. simpl columns.
  destruct (filter (λ c, c ∉ columns d) (c0 :: cols)) as [|m ms] eqn:Hf.
  - assert (c ∈ filter (λ c, c ∉ columns d) (c0 :: cols)) as Hin
      by (by apply list_elem_of_filter).
    rewrite Hf in Hin. by inversion Hin.
  - done.
Qed.

(** A level that always fails, when it is reached with the loaded frame,
    makes the loop fail. *)
Lemma process_levels_fail_at (levels : list Level) d st (level : Level) :
  (∀ st0, df st0 = Some d → ∃ e st', process_level level st0 = (inl e, st')) →
  level ∈ levels →
  df st = Some d →
  ∃ e st', process_levels levels st = (inl e, st').
Proof.
  intros Hfail Hlevel. revert st.
  induction levels as [|level' levels IH]; intros st Hdf;
    [by inversion Hlevel|].
  unfold process_levels in *. simpl. unfold bind.
  destruct (process_level level' st) as [[e|[]] st1] eqn:Hfirst;
    [by eexists _, _|].
  apply elem_of_cons in Hlevel as [<- | Hlevel].
  - destruct (Hfail st Hdf) as (e & st' & Hf). congruence.
  - apply IH; [done|].
    pose proof (process_level_same_world level' st) as Hsw.
    rewrite Hfirst in Hsw. destruct Hsw as [Hd _]. simpl in Hd.
    by rewrite Hd.
Qed.

(** A frame with fewer than two records has no group to forecast. *)
Lemma fit_candidates_too_few (cols : list string) d :
  length (rows d) < 2 →
  Forall (λ c, c ∈ columns d) cols →
  fit_candidates cols d = [].
Proof.
  intros Hlen Hcols. destruct cols as [|c cols].
  - unfold fit_candidates. by rewrite decide_True by done.
  - destruct (fit_candidates (c :: cols) d) as [|[k g] l] eqn:Hc; [done|].
    assert ((k, g) ∈ fit_candidates (c :: cols) d) as Hin
      by (rewrite Hc; left).
    apply elem_of_fit_candidates in Hin as [-> Hg]; [|done..].
    pose proof (length_filter (λ r, group_key (c :: cols) r = Some k) (rows d)).
    lia.
Qed.

Lemma all_frames_no_candidates (levels : list Level) d :
  (∀ level, level ∈ levels → fit_candidates level.2 d = []) →
  all_frames levels d = [].
Proof.
  unfold all_frames. induction levels as [|level levels IH]; intros Hnone;
    [done|].
  rewrite bind_cons, (Hnone level) by left. simpl. apply IH.
  intros level' ?. apply Hnone. by right.
Qed.

(** X1.  Every run ends the same way: no exception escapes the script, so
    its status is 0 and its last line is the finish banner.  With [git]
    commands that succeed or fail in the two ways the inner handlers
    cover, the failure banner of the outer handler is printed exactly when
    no file is written, and then no [git] command was issued either: the
    script never leaves without a file and without a report, and never
    reports a failure after it has written the file. *)
Theorem run_ends_written_or_reported env (levels : list Level)
    (input : Exn + DataFrame V) :
  let o := script env levels input in
  exit_code o = 0
  ∧ last (printed o) = Some MsgFinished
  ∧ ((∃ e, MsgScriptFailed e ∈ printed o) ↔ written o = None)
  ∧ (written o = None → git_log o = []).
Proof.
  simpl. destruct input as [e|d].
  { rewrite script_load_error. simpl. split_and!; [done..| | done].
    split; [done|]. intros _. exists e. list_mem. }
  destruct (process_levels levels (loaded_state d)) as [[e|[]] st1] eqn:Hrun.
  - destruct (script_loop_failed env levels d e st1 Hrun) as (-> & Hf & Hg).
    simpl. split_and!; [done | by rewrite last_snoc | | done].
    split; [done|]. intros _. exists e. list_mem.
  - destruct (all_forecasts st1) as [|f fs] eqn:Hall.
    + destruct (script_no_forecasts env levels d st1 Hrun Hall)
        as (-> & Hf & Hg).
      simpl. split_and!; [done | by rewrite last_snoc | | done].
      split; [done|]. intros _. eexists. list_mem.
    + destruct (script_published env levels d st1 Hrun)
        as (st3 & -> & Hfile & Hnf & _); [by rewrite Hall|].
      simpl. split_and!; [done | by rewrite last_snoc | | by rewrite Hfile].
      rewrite Hfile. split; [|done]. intros (e & He).
      apply elem_of_app in He as [He | He%list_elem_of_singleton];
        [by destruct (Hnf e) | done].
Qed.

(** X2.  A level whose grouping columns are not all in the loaded file
    does not yield zero groups: [dropna] raises [KeyError] with the
    missing columns as soon as the level is reached, and a run configured
    with such a level writes no file, issues no [git] command and reports
    a failure. *)
Theorem missing_key_column_aborts env (levels : list Level) d
    (level : Level) (c : string) :
  level ∈ levels → c ∈ level.2 → c ∉ columns d →
  let o := script env levels (inr d) in
  (∀ st, df st = Some d →
         (process_level level st).1
         = inl (KeyError (filter (λ c, c ∉ columns d) level.2)))
  ∧ written o = None
  ∧ git_log o = []
  ∧ ∃ e, MsgScriptFailed e ∈ printed o.
Proof.
  intros Hlevel Hc Hmissing. simpl. destruct level as [level_name cols].
  split.
  { intros st Hdf.
    by rewrite (process_level_key_error level_name cols d st c). }
  destruct (process_levels_fail_at levels d (loaded_state d) (level_name, cols))
    as (e & st1 & Hrun); [|done|done|].
  { intros st0 Hdf.
    rewrite (process_level_key_error level_name cols d st0 c) by done.
    by eexists _, _. }
  destruct (script_loop_failed env levels d e st1 Hrun) as (-> & ? & ?).
  simpl. split_and!; [done | done |]. exists e. list_mem.
Qed.

(** X3.  A level none of whose records has all its key columns filled is
    skipped: it prints that there is no data for its grouping columns,
    appends no frame and ends normally, so the next level runs. *)
Theorem level_without_keyed_records_is_skipped (level_name : string)
    (cols : list string) d st :
  df st = Some d →
  cols ≠ [] →
  Forall (λ c, c ∈ columns d) cols →
  (∀ r, r ∈ rows d → group_key cols r = None) →
  process_level (level_name, cols) st
  = (inr (), MkState (df st) (all_forecasts st)
               ((stdout st ++ [MsgProcessingLevel level_name])
                  ++ [MsgNoDataForLevel cols])
               (out_file st) (git_calls st)).
Proof.
  intros Hdf Hne Hcols Hnull. destruct cols as [|c cols]; [done|].
  unfold process_level.
  unfold bind at 1. simpl. unfold bind at 1. unfold get_df. simpl.
  rewrite Hdf, dropna_present by done.
  unfold bind at 1, lift, ret. cbn [rows].
  assert (filter (λ r, is_Some (group_key (c :: cols) r)) (rows d) = [])
    as ->; [|done].
  destruct (filter _ (rows d)) as [|r l] eqn:Hf; [done|].
  assert (r ∈ filter (λ r, is_Some (group_key (c :: cols) r)) (rows d))
    as [[k Hk] Hr]%list_elem_of_filter by (rewrite Hf; left).
  rewrite (Hnull r Hr) in Hk. done.
Qed.

(** X11.  A file with fewer than two records gives no forecast at any
    level, whatever the levels are (their columns being in the file): the
    run ends in the no-forecasts error of line 108, writes no file and
    issues no [git] command. *)
Theorem too_few_records_is_no_forecasts env (levels : list Level) d :
  length (rows d) < 2 →
  (∀ level, level ∈ levels → Forall (λ c, c ∈ columns d) level.2) →
  let o := script env levels (inr d) in
  written o = None
  ∧ git_log o = []
  ∧ MsgScriptFailed (ValueError NO_FORECASTS) ∈ printed o
  ∧ MsgScriptFailed FitError ∉ printed o.
Proof.
  intros Hlen Hcols. simpl.
  assert (∀ level, level ∈ levels → fit_candidates level.2 d = []) as Hnone.
  { intros level Hlevel. apply fit_candidates_too_few; [done|].
    by apply Hcols. }
  destruct (process_levels_ok levels d (loaded_state d))
    as (st1 & Hrun & Hall); [done | done | |].
  { intros level kg Hlevel Hkg. rewrite (Hnone level Hlevel) in Hkg.
    by inversion Hkg. }
  rewrite all_frames_no_candidates in Hall by done. simpl in Hall.
  destruct (script_no_forecasts env levels d st1 Hrun Hall) as (-> & ? & ?).
  pose proof (process_levels_no_failure levels (loaded_state d)) as Hnf.
  rewrite Hrun in Hnf. simpl. split_and!; [done | done | list_mem |].
  rewrite !elem_of_app, !list_elem_of_singleton.
  intros [[He | ?] | ?]; [|done..].
  apply Hnf in He. simpl in He.
  rewrite !elem_of_cons, elem_of_nil in He. by destruct He as [?|[?|[]]].
Qed.


(** X10.  The loop over the levels only adds to what it has collected and
    printed: the frames and the lines present before are still there, in
    place, after any number of levels, also when one of them raises; and
    each frame it adds is the frame of a group of one of the levels. *)
Theorem loop_only_appends (levels : list Level) st :
  let st' := (process_levels levels st).2 in
  all_forecasts st `prefix_of` all_forecasts st'
  ∧ stdout st `prefix_of` stdout st'
  ∧ ∀ frame, frame ∈ all_forecasts st' →
             frame ∈ all_forecasts st ∨ from_level levels frame.
Proof.
  simpl. destruct (process_levels_grows levels st) as (new & Hnew & Hfrom).
  split_and!.
  - rewrite Hnew. by apply prefix_app_r.
  - assert (PreOrder (λ st1 st2 : State V,
                        stdout st1 `prefix_of` stdout st2)) as Hpre.
    { split; [by intros ? | intros ??? H1 H2; by etrans]. }
    apply (preserves_for_each
             (λ st1 st2 : State V, stdout st1 `prefix_of` stdout st2)).
    intros level _ st0.
    apply (process_level_preserves
             (λ st1 st2 : State V, stdout st1 `prefix_of` stdout st2)).
    + intros m _ st1. simpl. by apply prefix_app_r.
    + by intros d kg _ st1.
  - intros frame. rewrite Hnew, elem_of_app. intros [? | Hin]; [by left|].
    right. rewrite Forall_forall in Hfrom. by apply Hfrom.
Qed.
End Failures.

Section Frames.
Context {V : Type} {model : Forecaster V}.
Implicit Types (st : State V) (d : DataFrame V) (s : Series V).

(** The rows a merge gives to dates that are not input dates: one each. *)
Lemma length_merge_actual_unmatched level_name cols keys s' s
    (dates : list date) :
  Forall (λ x, x ∉ s.*1) dates →
  length (merge_actual (tag_frame level_name cols keys (predict s' dates)) s)
  = length dates.
Proof.
  induction 1 as [|x dates Hx _ IH]; [done|].
  unfold predict, tag_frame, merge_actual in *.
  rewrite !fmap_cons, bind_cons, length_app, IH. simpl. f_equal.
  destruct (predict_at s' x) as [[yh lo] hi]. simpl.
  apply matches_nil in Hx. by rewrite Hx.
Qed.

Lemma length_filter_date_cons (x : date) (dates : list date) s :
  x ∉ dates →
  length (filter (λ p, p.1 ∈ x :: dates) s)
  = length (matches x s) + length (filter (λ p, p.1 ∈ dates) s).
Proof.
  intros Hx. unfold matches. induction s as [|p s IH]; [done|].
  rewrite !filter_cons.
  destruct (decide (p.1 = x)) as [Hp | Hp].
  - rewrite decide_True by (rewrite Hp; left).
    rewrite decide_False by (by rewrite Hp). simpl. by rewrite IH.
  - destruct (decide (p.1 ∈ dates)) as [Hd | Hd].
    + rewrite decide_True by (by right). simpl. rewrite IH. lia.
    + rewrite decide_False; [done|].
      by intros [? | ?]%elem_of_cons.
Qed.

(** The rows a merge gives to distinct input dates: one per input row of
    these dates. *)
Lemma length_merge_actual_matched level_name cols keys s' s
    (dates : list date) :
  NoDup dates →
  Forall (λ x, x ∈ s.*1) dates →
  length (merge_actual (tag_frame level_name cols keys (predict s' dates)) s)
  = length (filter (λ p, p.1 ∈ dates) s).
Proof.
  induction 1 as [|x dates Hx Hnd IH]; intros Hin.
  - simpl. symmetry. apply length_zero_iff_nil.
    destruct (filter _ s) as [|p l] eqn:Hf; [done|].
    assert (p ∈ filter (λ p, p.1 ∈ []) s) as [Hp _]%list_elem_of_filter
      by (rewrite Hf; left).
    by inversion Hp.
  - apply Forall_cons in Hin as [Hxs Hin].
    rewrite length_filter_date_cons by done. rewrite <- IH by done.
    unfold predict, tag_frame, merge_actual.
    rewrite !fmap_cons, bind_cons, length_app. f_equal.
    destruct (predict_at s' x) as [[yh lo] hi]. cbn [p_ds t_pred].
    destruct (matches x s) as [|p ms] eqn:Hm.
    + apply matches_nil in Hm. done.
    + by rewrite length_fmap.
Qed.

Lemma filter_all {A} (P : A → Prop) `{∀ x, Decision (P x)} (l : list A) :
  Forall P l → filter P l = l.
Proof.
  induction 1 as [|x l Hx _ IH]; [done|].
  rewrite filter_cons, decide_True by done. by f_equal.
Qed.

(** One row per input record and one per month ahead. *)
Lemma length_forecast_frame_any level_name cols keys s :
  s ≠ [] →
  length (forecast_frame level_name cols keys s)
  = length s + FORECAST_PERIOD_MONTHS.
Proof.
  intros Hne. destruct (latest_exists s Hne) as [d0 Hd0].
  unfold forecast_frame.
  rewrite (make_future_dataframe_latest s d0) by done.
  pose proof (length_merge_actual_matched level_name cols keys s s
                (history_dates s)) as Hhist.
  pose proof (length_merge_actual_unmatched level_name cols keys s s
                (future_dates d0 FORECAST_PERIOD_MONTHS)) as Hfut.
  unfold predict, tag_frame, merge_actual in *.
  rewrite !fmap_app, bind_app, length_app.
  rewrite Hhist, Hfut.
  - rewrite length_future_dates. f_equal.
    rewrite filter_all; [done|].
    apply Forall_forall. intros p Hp.
    apply elem_of_history_dates. by apply list_elem_of_fmap_2.
  - apply Forall_forall. intros x [Hlt _]%elem_of_future_dates Hx.
    destruct Hd0 as [_ Hub]. destruct Hlt as [Hle Hneq].
    apply Hneq. apply date_le_antisym; [done | by apply Hub].
  - apply NoDup_history_dates.
  - apply Forall_forall. intros x. apply elem_of_history_dates.
Qed.




(** X6.  A group on which the model is fitted contributes one row per
    record and one row per month of the horizon: its frame has as many
    rows as the group has records, plus three.  Records that share a date
    each get their row, so this holds with repeated dates too. *)
Theorem group_frame_has_a_row_per_record (level_name : string)
    (cols keys : list string) (group_df : list (Row V)) :
  group_df ≠ [] →
  length (forecast_frame level_name cols keys (sort_values (ds_y group_df)))
  = length group_df + 3.
Proof.
  intros Hne. rewrite length_forecast_frame_any.
  - unfold ds_y. by rewrite length_sort_values, length_fmap.
  - intros Hnil. apply (f_equal length) in Hnil.
    unfold ds_y in Hnil. rewrite length_sort_values, length_fmap in Hnil.
    by destruct group_df.
Qed.

End Frames.

Global Instance keys_le_total : Total keys_le.
Proof.
  intros a. induction a as [|x a IH]; intros [|y b]; unfold keys_le; simpl;
    [by left | by left | by right |].
  destruct (decide (x = y)) as [-> | Hne].
  - rewrite decide_True by done. apply IH.
  - rewrite decide_False by (by intros ->).
    destruct (total String.le x y);
      [left | right]; by apply bool_decide_eq_true_2.
Qed.

Section Groups.
Context {V : Type} {model : Forecaster V}.
Implicit Types (d cd : DataFrame V) (k : list string).

(** The key columns set on a frame read as the cells of any record whose
    key tuple is the tuple of the group. *)
Lemma set_keys_fold (cols : list string) k (rec : Row V) (c : string)
    (m : gmap string string) :
  Forall2 (λ c v, attrs rec !! c = Some v) cols k →
  foldl (λ m ck, <[ck.1 := ck.2]> m) m (zip cols k) !! c
  = if decide (c ∈ cols) then attrs rec !! c else m !! c.
Proof.
  intros Hkey. revert m.
  induction Hkey as [|c0 v cols k Hv _ IH]; intros m.
  - rewrite decide_False; [done | by inversion 1].
  - simpl. rewrite IH.
    destruct (decide (c ∈ cols)) as [Hin | Hnot].
    + by rewrite decide_True by (by right).
    + destruct (decide (c = c0)) as [-> | Hne].
      * rewrite decide_True by left. by rewrite lookup_insert_eq.
      * rewrite decide_False by (by intros [?|?]%elem_of_cons).
        by apply lookup_insert_ne.
Qed.

Lemma key_columns_filled (cols : list string) k (rec : Row V) (c : string) :
  Forall2 (λ c v, attrs rec !! c = Some v) cols k →
  c ∈ cols → is_Some (attrs rec !! c).
Proof.
  induction 1 as [|c0 v cols k Hv _ IH]; [by inversion 1|].
  intros [-> | Hc]%elem_of_cons; [by eexists | by apply IH].
Qed.

(** X8.  Every row that a group of a keyed level contributes carries, in
    each key column of the level, the value that the records of the group
    have in that column; this value is never null. *)
Theorem rows_carry_the_keys_of_their_group (level_name : string)
    (cols : list string) d (kg : list string * list (Row V))
    (row : FRow V) (rec : Row V) (c : string) :
  cols ≠ [] →
  Forall (λ c, c ∈ columns d) cols →
  kg ∈ fit_candidates cols d →
  row ∈ group_frame level_name cols kg →
  rec ∈ kg.2 →
  c ∈ cols →
  ∃ v, attrs rec !! c = Some v
       ∧ f_keys row !! c = Some v
       ∧ key_cell row c = CStr v.
Proof.
  intros Hne Hcols Hkg Hrow Hrec Hc. destruct kg as [k g].
  apply elem_of_fit_candidates in Hkg as [-> _]; [|done..].
  simpl in Hrec. apply list_elem_of_filter in Hrec as [Hkey _].
  apply group_key_Some in Hkey.
  apply forecast_frame_tags in Hrow as (_ & Hkeys & _). simpl in Hkeys.
  destruct (key_columns_filled cols k rec c Hkey Hc) as [v Hv].
  exists v. split; [done|].
  assert (f_keys row !! c = Some v) as Hcell.
  { rewrite Hkeys. unfold set_keys. rewrite (set_keys_fold cols k rec c ∅ Hkey).
    by rewrite decide_True by done. }
  split; [done|]. unfold key_cell. by rewrite Hcell.
Qed.

Lemma mjoin_cons {A} (x : list A) (ls : list (list A)) :
  mjoin (x :: ls) = x ++ mjoin ls.
Proof. reflexivity. Qed.

(** Grouping the elements of a list by a key, one class per key of a list
    of distinct keys that has them all, loses and repeats nothing. *)
Lemma classes_cover {A K} `{EqDecision K} (f : A → K) (keys : list K)
    (l : list A) :
  NoDup keys →
  (∀ x, x ∈ l → f x ∈ keys) →
  mjoin ((λ a, filter (λ x, f x = a) l) <$> keys) ≡ₚ l.
Proof.
  intros Hnd. induction l as [|x l IH]; intros Hin.
  - clear. induction keys as [|a keys IH]; [done|]. by rewrite fmap_cons.
  - destruct (list_elem_of_split keys (f x)) as (k1 & k2 & ->);
      [apply Hin; left|].
    assert (mjoin ((λ a, filter (λ x, f x = a) l) <$> k1 ++ f x :: k2) ≡ₚ l)
      as Hl by (apply IH; intros; apply Hin; by right).
    apply NoDup_app in Hnd as (Hnd1 & Hdisj & Hnd2).
    apply NoDup_cons in Hnd2 as [Hk2 Hnd2].
    etrans; [|apply Permutation_skip, Hl].
    rewrite !fmap_app, !fmap_cons, !join_app, !mjoin_cons.
    rewrite filter_cons, decide_True by done.
    assert (∀ ks : list K, f x ∉ ks →
              (λ a, filter (λ y, f y = a) (x :: l)) <$> ks
              = (λ a, filter (λ y, f y = a) l) <$> ks) as Hsame.
    { intros ks Hks. apply Forall_fmap_ext_1, Forall_forall.
      intros a Ha. rewrite filter_cons, decide_False; [done|].
      by intros <-. }
    rewrite !Hsame; [|done|].
    + rewrite <- app_comm_cons. symmetry. apply Permutation_middle.
    + intros Hx. by apply (Hdisj (f x)); [|left].
Qed.

Lemma groupby_groups (cols : list string) cd :
  (groupby cols cd).*2
  = (λ a, filter (λ r, group_key cols r = a) (rows cd))
      <$> (Some <$> merge_sort keys_le
                      (remove_dups (omap (group_key cols) (rows cd)))).
Proof.
  unfold groupby. rewrite <- !list_fmap_compose.
  by apply Forall_fmap_ext_1, Forall_forall.
Qed.

(** X9.  [dropna] and [groupby] partition the records that have all the
    key columns of a level filled: [dropna] keeps exactly these records
    and leaves the header alone; the groups taken together are these
    records, none lost and none repeated; no group is empty; the records
    of a group all have the key tuple of the group; and the groups come
    one per key tuple, in ascending order of the tuples. *)
Theorem grouping_partitions_the_keyed_records (cols : list string) d cd :
  dropna cols (copy d) = inr cd →
  columns cd = columns d
  ∧ rows cd = filter (λ r, is_Some (group_key cols r)) (rows d)
  ∧ mjoin ((groupby cols cd).*2) ≡ₚ rows cd
  ∧ Forall (λ kg, kg.2 ≠ [] ∧ ∀ r, r ∈ kg.2 → group_key cols r = Some kg.1)
           (groupby cols cd)
  ∧ NoDup (groupby cols cd).*1
  ∧ Sorted keys_le (groupby cols cd).*1.
Proof.
  intros Hdrop.
  assert (cd = MkDataFrame (columns d)
                 (filter (λ r, is_Some (group_key cols r)) (rows d))) as Hcd.
  { unfold dropna in Hdrop. simpl in Hdrop.
    destruct (filter (λ c, c ∉ columns d) cols); [|done]. by injection Hdrop. }
  split_and!.
  - by rewrite Hcd.
  - by rewrite Hcd.
  - rewrite groupby_groups. apply classes_cover.
    + apply (NoDup_fmap_2 Some). rewrite merge_sort_Permutation.
      apply NoDup_remove_dups.
    + intros r Hr. rewrite Hcd in Hr. simpl in Hr.
      apply list_elem_of_filter in Hr as [[k Hk] Hr].
      rewrite Hk. apply list_elem_of_fmap_2.
      rewrite merge_sort_Permutation, elem_of_remove_dups.
      apply list_elem_of_omap. exists r. split; [|done].
      rewrite Hcd. simpl. apply list_elem_of_filter. split; [by eexists | done].
  - apply Forall_forall. intros [k g] [(r & Hr & Hk) ->]%elem_of_groupby.
    simpl. split.
    + intros Hnil.
      assert (r ∈ filter (λ r, group_key cols r = Some k) (rows cd)) as Hin
        by (by apply list_elem_of_filter).
      rewrite Hnil in Hin. by inversion Hin.
    + by intros r' [? _]%list_elem_of_filter.
  - apply NoDup_groupby_keys.
  - rewrite groupby_keys. apply (Sorted_merge_sort keys_le).
Qed.
End Groups.

Section Publishing.
Context {V : Type} {model : Forecaster V}.
Implicit Types (st : State V) (d : DataFrame V) (env : Env).

(** The [git] commands of the publish step, in the order of lines
    141-151. *)
Lemma publish_sequence env st :
  let add := ["git"; "add"; OUTPUT_CSV] in
  let status := ["git"; "status"; "--porcelain"] in
  let commit := ["git"; "commit"; "-m"; commit_message env] in
  let push := ["git"; "push"] in
  let st' := (publish env st).2 in
  ∃ calls,
    git_calls st' = git_calls st ++ calls
    ∧ calls `prefix_of` [add; status; commit; push]
    ∧ add ∈ calls
    ∧ (commit ∈ calls →
       (∃ out, git env add = GitOk out)
       ∧ ∃ out, git env status = GitOk out
                ∧ contains (normalize_path OUTPUT_CSV) (normalize_path out)
                  = true)
    ∧ (push ∈ calls → ∃ out, git env commit = GitOk out)
    ∧ (∀ out0 out, git env add = GitOk out0 → git env status = GitOk out →
         contains (normalize_path OUTPUT_CSV) (normalize_path out) = false →
         calls = [add; status] ∧ MsgNoChanges ∈ stdout st').
Proof.
  unfold publish, try_except, bind, subprocess_run, print, commit_message.
  simpl.
  repeat match goal with
    | |- context [match git env ?c with _ => _ end] =>
        destruct (git env c) eqn:?; simpl
    | |- context [if contains ?a ?b then _ else _] =>
        destruct (contains a b) eqn:?; simpl
    end;
    (eexists; split; [rewrite <- ?app_assoc; reflexivity|]; simpl;
     split; [by eexists|];
     split; [list_mem|]; split_and!;
     [ intros Hin;
       first [ by (split; [eexists | eexists; split])
             | rewrite ?elem_of_cons, ?elem_of_nil in Hin;
               decompose [or] Hin; (congruence || done) ]
     | intros Hin;
       first [ by eexists
             | rewrite ?elem_of_cons, ?elem_of_nil in Hin;
               decompose [or] Hin; (congruence || done) ]
     | intros out0 out Ha Hs Hc; simplify_eq;
       first [ congruence | split; [done | list_mem] ] ]).
Qed.

(** X4.  The publish step runs only after the file is written, and its
    [git] commands are issued in one order, each only after the previous
    one succeeded: add, status, commit, push.  The commit is issued only
    when [git status] lists the output file (backslashes read as
    slashes); otherwise the step stops after the status, says that there
    is nothing to commit, and neither commits nor pushes. *)
Theorem publish_commands_are_ordered env (levels : list Level)
    (input : Exn + DataFrame V) :
  let add := ["git"; "add"; OUTPUT_CSV] in
  let status := ["git"; "status"; "--porcelain"] in
  let commit := ["git"; "commit"; "-m"; commit_message env] in
  let push := ["git"; "push"] in
  let o := script env levels input in
  git_log o `prefix_of` [add; status; commit; push]
  ∧ (is_Some (written o) ↔ add ∈ git_log o)
  ∧ (commit ∈ git_log o →
     (∃ out, git env add = GitOk out)
     ∧ ∃ out, git env status = GitOk out
              ∧ contains (normalize_path OUTPUT_CSV) (normalize_path out)
                = true)
  ∧ (push ∈ git_log o → ∃ out, git env commit = GitOk out)
  ∧ (∀ out0 out, is_Some (written o) →
       git env add = GitOk out0 → git env status = GitOk out →
       contains (normalize_path OUTPUT_CSV) (normalize_path out) = false →
       git_log o = [add; status] ∧ MsgNoChanges ∈ printed o).
Proof.
  intros add status commit push o.
  assert (written o = None → git_log o = [] →
          git_log o `prefix_of` [add; status; commit; push]
          ∧ (is_Some (written o) ↔ add ∈ git_log o)
          ∧ (commit ∈ git_log o →
             (∃ out, git env add = GitOk out)
             ∧ ∃ out, git env status = GitOk out
                      ∧ contains (normalize_path OUTPUT_CSV)
                                 (normalize_path out) = true)
          ∧ (push ∈ git_log o → ∃ out, git env commit = GitOk out)
          ∧ (∀ out0 out, is_Some (written o) →
               git env add = GitOk out0 → git env status = GitOk out →
               contains (normalize_path OUTPUT_CSV) (normalize_path out)
               = false →
               git_log o = [add; status] ∧ MsgNoChanges ∈ printed o))
    as Hnothing.
  { intros -> ->. split_and!.
    - by eexists.
    - split; [by intros [? ?] | by inversion 1].
    - by inversion 1.
    - by inversion 1.
    - by intros ?? [? ?]. }
  subst o. destruct input as [e|d]; [by apply Hnothing|].
  destruct (process_levels levels (loaded_state d)) as [[e|[]] st1] eqn:Hrun.
  { destruct (script_loop_failed env levels d e st1 Hrun) as (Hs & Hf & Hg).
    apply Hnothing; by rewrite Hs. }
  destruct (all_forecasts st1) as [|f fs] eqn:Hfs.
  { destruct (script_no_forecasts env levels d st1 Hrun Hfs) as (Hs & Hf & Hg).
    apply Hnothing; by rewrite Hs. }
  clear Hnothing.
  pose proof (process_levels_loaded _ _ _ _ Hrun) as (_ & _ & Hcalls).
  rewrite script_phases, Hrun, write_output_some by (by rewrite Hfs).
  set (st2 := MkState _ _ _ _ _).
  destruct (publish_sequence env st2)
    as (calls & Hlog & Hprefix & Hadd & Hcommit & Hpush & Hsame).
  destruct (publish_catches env st2) as (st3 & Hpub & _ & _ & Hfile & _).
  rewrite Hpub in *. simpl in Hlog, Hfile, Hsame. rewrite Hcalls in Hlog.
  simpl in Hlog. simpl. rewrite Hlog, Hfile.
  split_and!; [done | by split; [|eexists] | done | done |].
  intros out0 out _ Ha Hs Hc. destruct (Hsame out0 out Ha Hs Hc) as [-> Hmsg].
  split; [done|]. apply elem_of_app. by left.
Qed.
End Publishing.

(** ** The changed-file test of line 146 *)

Lemma prefix_spec (a b : string) :
  String.prefix a b = true ↔ ∃ post, b = a +:+ post.
Proof.
  revert b. induction a as [|c a IH]; intros b.
  - destruct b; split; simpl; eauto.
  - destruct b as [|c' b]; simpl; [split; [done | by intros [? ?]]|].
    destruct (ascii_dec c c') as [-> | Hne].
    + split.
      * intros [post ->]%IH. by exists post.
      * intros [post [= ->]]. apply IH. by exists post.
    + split; [done|]. intros [post [= ? _]]. done.
Qed.

Lemma contains_spec (a b : string) :
  contains a b = true ↔ ∃ pre post, b = pre +:+ a +:+ post.
Proof.
  induction b as [|c b IH].
  - change (contains a "") with (String.prefix a "" || false).
    rewrite orb_false_r, prefix_spec. split.
    + intros [post Hpost]. by exists "", post.
    + intros ([|??] & post & Hpost); [by exists post | done].
  - change (contains a (String c b))
      with (String.prefix a (String c b) || contains a b).
    rewrite orb_true_iff, prefix_spec, IH. split.
    + intros [[post Hpost] | (pre & post & ->)].
      * by exists "", post.
      * by exists (String c pre), post.
    + intros ([|c' pre] & post & Hpost).
      * left. by exists post.
      * right. injection Hpost as -> ->. by exists pre, post.
Qed.

Lemma normalize_path_app (a b : string) :
  normalize_path (a +:+ b) = normalize_path a +:+ normalize_path b.
Proof. induction a as [|c a IH]; simpl; [done | by rewrite IH]. Qed.

(** X5.  The test that decides whether to commit reads the status output
    with every backslash turned into a slash and looks for the path
    [output/sales_forecast.csv] anywhere in it: it succeeds exactly when
    the normalised output is some text, the path, and some text; so a
    status line that spells the path with a backslash is recognised like
    one that spells it with a slash. *)
Theorem changed_file_test_ignores_separator (status : string) :
  (contains (normalize_path OUTPUT_CSV) (normalize_path status) = true ↔
   ∃ pre post,
     normalize_path status = pre +:+ "output/sales_forecast.csv" +:+ post)
  ∧ (∀ pre post,
       contains (normalize_path OUTPUT_CSV)
         (normalize_path
            (pre +:+ "output" +:+ String "\"%char "sales_forecast.csv"
                 +:+ post)) = true
       ∧ contains (normalize_path OUTPUT_CSV)
           (normalize_path (pre +:+ "output/sales_forecast.csv" +:+ post))
         = true).
Proof.
  split; [apply contains_spec|].
  intros pre post. split; apply contains_spec;
    exists (normalize_path pre), (normalize_path post);
    by rewrite !normalize_path_app.
Qed.

Global Instance series_le_total {V} : Total (@series_le V).
Proof. intros p q. unfold series_le. apply (total date_le). Qed.

Section Estimates.
Context {V : Type} {model : Forecaster V}.

(** X13.  The model of a group is fitted on the records of that group
    only, sorted by date, and every row the group contributes carries the
    estimate and the interval that this model gives for the date of the
    row: no value comes from another group or level. *)
Theorem rows_carry_the_estimates_of_their_group (level_name : string)
    (cols : list string) (kg : list string * list (Row V)) :
  let prophet_df := sort_values (ds_y kg.2) in
  Sorted series_le prophet_df
  ∧ prophet_df ≡ₚ (λ r, (ds r, y r)) <$> kg.2
  ∧ ∀ row, row ∈ group_frame level_name cols kg →
           (yhat row, yhat_lower row, yhat_upper row)
           = predict_at prophet_df (f_ds row).
Proof.
  simpl. split_and!.
  - apply (Sorted_merge_sort series_le).
  - apply sort_values_Permutation.
  - intros row. unfold group_frame, forecast_frame.
    rewrite elem_of_merge_actual.
    intros (t & (p & Hp & ->)%elem_of_tag_frame & Hrow).
    unfold predict in Hp. apply list_elem_of_fmap in Hp as (x & -> & _).
    destruct (predict_at (sort_values (ds_y kg.2)) x) as [[yh lo] hi] eqn:Hx.
    destruct Hrow as [(q & _ & _ & ->) | [_ ->]]; simpl; by rewrite Hx.
Qed.
End Estimates.

(** * The further properties on the sample data *)

(** X2 on a file without the [PSRCode] column and the five levels. *)
Lemma missing_key_column_aborts_witness :
  let d := Cases.no_psr_column in
  let o := script (model := Sample.model) Sample.healthy FORECAST_LEVELS
             (inr d) in
  ("By_BCode_PSR", ["BCode"; "PSRCode"]) ∈ FORECAST_LEVELS
  ∧ "PSRCode" ∈ ["BCode"; "PSRCode"]
  ∧ ("PSRCode" ∉ columns d)
  ∧ written o = None ∧ git_log o = [].
Proof.
  intros d o.
  assert (("By_BCode_PSR", ["BCode"; "PSRCode"]) ∈ FORECAST_LEVELS) as Hlevel
    by in_computed_list.
  assert ("PSRCode" ∈ ["BCode"; "PSRCode"]) as Hc by in_computed_list.
  assert ("PSRCode" ∉ columns d) as Hmissing by compute_done.
  destruct (missing_key_column_aborts (model := Sample.model) Sample.healthy
              FORECAST_LEVELS d ("By_BCode_PSR", ["BCode"; "PSRCode"])
              "PSRCode" Hlevel Hc Hmissing) as (_ & Hfile & Hgit & _).
  by split_and!.
Defined.

(** X3 on scenario B: no record has a product code. *)
Lemma level_without_keyed_records_is_skipped_witness :
  let d := Sample.bcodes in
  let cols := ["BCode"; "ProductCode"] in
  df (loaded_state d) = Some d
  ∧ cols ≠ []
  ∧ Forall (λ c, c ∈ columns d) cols
  ∧ Forall (λ r, group_key cols r = None) (rows d)
  ∧ (process_level (model := Sample.model) ("By_BCode_Product", cols)
       (loaded_state d)).1 = inr ().
Proof.
  intros d cols.
  assert (Forall (λ c, c ∈ columns d) cols) as Hcols by compute_done.
  assert (Forall (λ r, group_key cols r = None) (rows d)) as Hnull
    by compute_done.
  split_and!; [done | done | done | done |].
  rewrite (level_without_keyed_records_is_skipped (model := Sample.model)
             "By_BCode_Product" cols d (loaded_state d) eq_refl
             ltac:(done) Hcols (proj1 (Forall_forall _ _) Hnull)).
  reflexivity.
Defined.

(** X6 on the three records of scenario B, two of them of February. *)
Lemma group_frame_has_a_row_per_record_witness :
  rows Sample.bcodes ≠ []
  ∧ length (forecast_frame (model := Sample.model) "Overall" [] []
              (sort_values (ds_y (rows Sample.bcodes)))) = 6.
Proof.
  assert (rows Sample.bcodes ≠ []) as Hne by done.
  split; [done|].
  exact (group_frame_has_a_row_per_record (model := Sample.model)
           "Overall" [] [] (rows Sample.bcodes) Hne).
Defined.


(** X8 on group A of level [By_BCode]. *)
Lemma rows_carry_the_keys_of_their_group_witness :
  let d := Cases.two_units in
  let kg := (["A"], filter (λ r : Row nat, group_key ["BCode"] r = Some ["A"])
                           (rows d)) in
  let rec := Sample.row 2024 1 (Some 20) [("BCode", "A"); ("ProductCode", "P1")] in
  let row := MkFRow (Date 2024 1 1) 2 1 3 "By_BCode"
               (set_keys ["BCode"] ["A"]) (Some 20) in
  ["BCode"] ≠ []
  ∧ Forall (λ c, c ∈ columns d) ["BCode"]
  ∧ kg ∈ fit_candidates ["BCode"] d
  ∧ row ∈ group_frame (H := Sample.model) "By_BCode" ["BCode"] kg
  ∧ rec ∈ kg.2
  ∧ "BCode" ∈ ["BCode"]
  ∧ key_cell row "BCode" = CStr "A".
Proof.
  intros d kg rec row.
  assert (Forall (λ c, c ∈ columns d) ["BCode"]) as Hcols by compute_done.
  assert (kg ∈ fit_candidates ["BCode"] d) as Hkg by in_computed_list.
  assert (row ∈ group_frame (H := Sample.model) "By_BCode" ["BCode"] kg)
    as Hrow by in_computed_list.
  assert (rec ∈ kg.2) as Hrec by in_computed_list.
  assert ("BCode" ∈ ["BCode"]) as Hc by in_computed_list.
  split_and!; [done..|].
  destruct (rows_carry_the_keys_of_their_group (model := Sample.model)
              "By_BCode" ["BCode"] d kg row rec "BCode"
              ltac:(done) Hcols Hkg Hrow Hrec Hc) as (v & Hv & _ & Hcell).
  rewrite Hcell. f_equal. vm_compute in Hv. by injection Hv.
Defined.

(** X9 on the same file: the record without a business unit is dropped,
    the four others make two groups. *)
Lemma grouping_partitions_the_keyed_records_witness :
  let d := Cases.two_units in
  let cd := MkDataFrame (columns d)
              (filter (λ r, is_Some (group_key ["BCode"] r)) (rows d)) in
  dropna ["BCode"] (copy d) = inr cd
  ∧ length (rows cd) = 4
  ∧ (groupby ["BCode"] cd).*1 = [["A"]; ["B"]]
  ∧ mjoin ((groupby ["BCode"] cd).*2) ≡ₚ rows cd.
Proof.
  intros d cd.
  assert (dropna ["BCode"] (copy d) = inr cd) as Hdrop
    by (vm_compute; reflexivity).
  split_and!; [done | vm_compute; reflexivity | vm_compute; reflexivity |].
  apply (grouping_partitions_the_keyed_records ["BCode"] d cd Hdrop).
Defined.

(** X11 on a file with one record. *)
Lemma too_few_records_is_no_forecasts_witness :
  let d := Cases.one_record in
  let o := script (model := Sample.model) Sample.healthy FORECAST_LEVELS
             (inr d) in
  length (rows d) < 2
  ∧ Forall (λ level : Level, Forall (λ c, c ∈ columns d) level.2) FORECAST_LEVELS
  ∧ written o = None
  ∧ MsgScriptFailed (ValueError NO_FORECASTS) ∈ printed o.
Proof.
  intros d o.
  assert (length (rows d) < 2) as Hlen by (vm_compute; lia).
  assert (Forall (λ level : Level, Forall (λ c, c ∈ columns d) level.2)
                 FORECAST_LEVELS) as Hcols by compute_done.
  destruct (too_few_records_is_no_forecasts (model := Sample.model)
              Sample.healthy FORECAST_LEVELS d Hlen
              (proj1 (Forall_forall _ _) Hcols)) as (Hfile & _ & Hmsg & _).
  by split_and!.
Defined.


(** X4 on a status that lists the file the Windows way, and on one that
    lists nothing. *)
Lemma publish_commands_are_ordered_witness :
  git_log (script (model := Sample.model) Cases.windows_status
             FORECAST_LEVELS (inr Sample.bcodes))
  = [["git"; "add"; OUTPUT_CSV]; ["git"; "status"; "--porcelain"];
     ["git"; "commit"; "-m"; "Auto-update sales forecast: 2024-03-01 09:00:00"];
     ["git"; "push"]]
  ∧ git_log (script (model := Sample.model) Cases.unchanged
               FORECAST_LEVELS (inr Sample.bcodes))
    = [["git"; "add"; OUTPUT_CSV]; ["git"; "status"; "--porcelain"]].
Proof.
  split; [vm_compute; reflexivity|].
  apply (publish_commands_are_ordered (model := Sample.model) Cases.unchanged
           FORECAST_LEVELS (inr Sample.bcodes)) with (out0 := "") (out := "").
  - eexists. vm_compute. reflexivity.
  - reflexivity.
  - reflexivity.
  - vm_compute. reflexivity.
Defined.
